(** * FlaxEngine content importers: ModelTool.h and ImportShader.cpp

    A shallow embedding of the executable parts of
    [Source/Engine/Tools/ModelTool/ModelTool.h] and
    [Source/Engine/ContentImporters/ImportShader.cpp], with the properties
    of the import pipeline stated over it. *)

From Stdlib Require Import QArith Floats.SpecFloat.
From stdpp Require Import base option list gmap strings.

Local Open Scope Z_scope.

(** * Scalars

    [int32] values are integers.  The code below never does arithmetic on
    node indices, it only compares them and uses them as subscripts, so no
    wrap-around arises there.  A [float] is a single-precision (binary32)
    value, held as the rational number it equals.  Every [float] in these
    files is a literal that is stored, never computed with: 175, 45, 1, 0
    and 0.5 are binary32 values as written; a literal that is not, such as
    [0.6f], denotes the binary32 value nearest to it ([binary32_literal]
    below). *)

Definition int32 := Z.
Definition float := Q.

(** * Node hierarchy resolver (ModelTool.h, lines 399-413) *)

(** The engine's [Transform] is declared outside these sources.  The
    resolver uses two things of it: the constant [Transform::Identity] and
    the member [parent.LocalToWorld(child)]. *)
Class TransformOps (Transform : Type) := {
  Identity : Transform;
  LocalToWorld : Transform -> Transform -> Transform
}.

(** [CombineTransformsFromNodeIndices] is a template over the node type: it
    needs the members [ParentIndex] and [LocalTransform]. *)
Class NodeLike (Transform Node : Type) := {
  ParentIndex : Node -> int32;
  LocalTransform : Node -> Transform
}.

(** [ImportedModelData::Node] (lines 70-86). *)
Module ImportedNode.
Record Node (Transform : Type) := mkNode {
  ParentIndex : int32;
  LocalTransform : Transform;
  Name : string
}.
Arguments mkNode {Transform}.
Arguments ParentIndex {Transform}.
Arguments LocalTransform {Transform}.
Arguments Name {Transform}.
End ImportedNode.

#[export] Instance ImportedNode_NodeLike (Transform : Type) :
  NodeLike Transform (ImportedNode.Node Transform) :=
  {| ParentIndex := ImportedNode.ParentIndex;
     LocalTransform := ImportedNode.LocalTransform |}.

(** What a call can do: return a value, break a precondition of the
    language or of a container (no defined behaviour follows), or still be
    running when the recursion budget of the model is used up. *)
Inductive FaultKind :=
| IndexOutOfRange    (* Array::operator[] outside [0, Count) *)
| InvalidDelete      (* Delete of a pointer that is not a live object *)
| NullDereference.   (* member access through a null pointer *)

Inductive Outcome (A : Type) :=
| Returned (a : A)
| Fault (f : FaultKind)
| OutOfFuel.
Arguments Returned {A}.
Arguments Fault {A}.
Arguments OutOfFuel {A}.

Definition terminated {A} (o : Outcome A) : bool :=
  match o with OutOfFuel => false | _ => true end.

(** [nodes[index]]: defined for [0 <= index < nodes.Count()]. *)
Definition at_index {A} (nodes : list A) (index : int32) : option A :=
  if index <? 0 then None else nodes !! Z.to_nat index.

Section Resolver.
Context {Transform Node : Type}.
Context `{!TransformOps Transform, !NodeLike Transform Node}.

(** The function as written; [fuel] bounds the recursion depth. *)
Fixpoint CombineTransformsFromNodeIndices
    (fuel : nat) (nodes : list Node) (rootIndex index : int32)
    : Outcome Transform :=
  match fuel with
  | O => OutOfFuel
  | S fuel' =>
    if (index =? -1) || (index =? rootIndex) then Returned Identity
    else
      match at_index nodes index with
      | None => Fault IndexOutOfRange
      | Some node =>
        let result := LocalTransform node in
        if negb (index =? rootIndex) then
          match CombineTransformsFromNodeIndices
                  fuel' nodes rootIndex (ParentIndex node) with
          | Returned parentTransform =>
              Returned (LocalToWorld parentTransform result)
          | Fault f => Fault f
          | OutOfFuel => OutOfFuel
          end
        else Returned result
      end
  end.

(** The variant with the inner [if (index != rootIndex)] removed: the
    parent is always resolved and composed. *)
Fixpoint CombineTransforms_simplified
    (fuel : nat) (nodes : list Node) (rootIndex index : int32)
    : Outcome Transform :=
  match fuel with
  | O => OutOfFuel
  | S fuel' =>
    if (index =? -1) || (index =? rootIndex) then Returned Identity
    else
      match at_index nodes index with
      | None => Fault IndexOutOfRange
      | Some node =>
        match CombineTransforms_simplified
                fuel' nodes rootIndex (ParentIndex node) with
        | Returned parentTransform =>
            Returned (LocalToWorld parentTransform (LocalTransform node))
        | Fault f => Fault f
        | OutOfFuel => OutOfFuel
        end
      end
  end.

(** The two indices at which the resolver stops. *)
Definition stops_at (rootIndex index : int32) : bool :=
  (index =? -1) || (index =? rootIndex).

(** [climb k nodes rootIndex i]: the index reached from [i] after [k]
    parent links, provided every node left behind on the way is in range
    and is neither [-1] nor [rootIndex]. *)
Fixpoint climb (k : nat) (nodes : list Node) (rootIndex i : int32)
    : option int32 :=
  match k with
  | O => Some i
  | S k' =>
    if stops_at rootIndex i then None
    else
      match at_index nodes i with
      | None => None
      | Some node => climb k' nodes rootIndex (ParentIndex node)
      end
  end.

(** A parent-index cycle reachable from [index]: some node [c] on the
    way up is reached again from itself.  A self-referential node is the
    case [k = 1]. *)
Definition CycleReachable (nodes : list Node) (rootIndex index : int32)
    : Prop :=
  exists (m k : nat) (c : int32),
    climb m nodes rootIndex index = Some c /\
    (0 < k)%nat /\
    climb k nodes rootIndex c = Some c.

(** The parent chain of [index], listed from the node just under the
    root down to [index] itself, each entry with its node record.  A
    derivation exists exactly when the chain is finite and ends at
    [rootIndex] or at [-1]. *)
Inductive ParentChain (nodes : list Node) (rootIndex : int32)
    : int32 -> list (int32 * Node) -> Prop :=
| chain_stop index :
    stops_at rootIndex index = true ->
    ParentChain nodes rootIndex index []
| chain_link index node path :
    stops_at rootIndex index = false ->
    at_index nodes index = Some node ->
    ParentChain nodes rootIndex (ParentIndex node) path ->
    ParentChain nodes rootIndex index (path ++ [(index, node)]).

(** Composition along a chain, parent applied to child, root side
    first. *)
Definition compose_chain (path : list (int32 * Node)) : Transform :=
  fold_left (fun parent entry => LocalToWorld parent (LocalTransform entry.2))
            path Identity.
End Resolver.

(** Transform terms that record how they were built.  Running the resolver
    over them shows which local transforms were composed and in which
    order. *)
Inductive TransformTerm :=
| IdentityTerm
| LocalTerm (label : nat)
| LocalToWorldTerm (parent child : TransformTerm).

#[export] Instance TransformTerm_ops : TransformOps TransformTerm :=
  {| Identity := IdentityTerm; LocalToWorld := LocalToWorldTerm |}.

Definition term_node (parent : int32) (label : nat)
    : ImportedNode.Node TransformTerm :=
  ImportedNode.mkNode parent (LocalTerm label) "".

(** Sample hierarchies: a three-node chain under root 0, the same array
    with nodes 1 and 2 pointing at each other, and one whose node 1 is its
    own parent. *)
Definition chain_nodes : list (ImportedNode.Node TransformTerm) :=
  [term_node (-1) 0; term_node 0 1; term_node 1 2].
Definition cyclic_nodes : list (ImportedNode.Node TransformTerm) :=
  [term_node (-1) 0; term_node 2 1; term_node 1 2].
Definition selfref_nodes : list (ImportedNode.Node TransformTerm) :=
  [term_node (-1) 0; term_node 1 1].

(** * Import data types (ModelTool.h, lines 20-53) *)

Module ImportDataTypes.
Definition None : int32 := 0.
Definition Geometry : int32 := Z.shiftl 1 0.
End ImportDataTypes.

(** * Import options (ModelTool.h, lines 195-364) *)

Inductive ModelType := Model | SkinnedModel | Animation.
Inductive AnimationDuration := Imported | Custom.

(** Types and constants the options refer to and these sources do not
    declare. *)
Class EngineTypes := {
  ModelLightmapUVsSource : Type;
  ModelLightmapUVsSource_Disable : ModelLightmapUVsSource;
  Quaternion : Type;
  Quaternion_Identity : Quaternion;
  Float3 : Type;
  Float3_Zero : Float3;
  SplitCallback : Type
}.

(** Modelled from the spec: [Float2] and [Float2::Zero] are declared outside
    the sources; section 6 gives the default of [FramesRange] as (0,0). *)
Record Float2 := { X : float; Y : float }.
Definition Float2_Zero : Float2 := {| X := 0%Q; Y := 0%Q |}.

(** A raw pointer: an address, 0 for [nullptr]. *)
Definition pointer := N.
Definition nullptr : pointer := 0%N.

Record Options `{EngineTypes} := {
  Type_ : ModelType;
  (* Geometry *)
  CalculateNormals : bool;
  SmoothingNormalsAngle : float;
  FlipNormals : bool;
  CalculateTangents : bool;
  SmoothingTangentsAngle : float;
  OptimizeMeshes : bool;
  MergeMeshes : bool;
  ImportLODs : bool;
  ImportVertexColors : bool;
  ImportBlendShapes : bool;
  LightmapUVsSource : ModelLightmapUVsSource;
  CollisionMeshesPrefix : string;
  (* Transform *)
  Scale : float;
  Rotation : Quaternion;
  Translation : Float3;
  CenterGeometry : bool;
  (* Animation *)
  Duration : AnimationDuration;
  FramesRange : Float2;
  DefaultFrameRate : float;
  SamplingRate : float;
  SkipEmptyCurves : bool;
  OptimizeKeyframes : bool;
  ImportScaleTracks : bool;
  EnableRootMotion : bool;
  RootNodeName : string;
  (* Level Of Detail *)
  GenerateLODs : bool;
  BaseLOD : int32;
  LODCount : int32;
  TriangleReduction : float;
  (* Materials *)
  ImportMaterials : bool;
  ImportTextures : bool;
  RestoreMaterialsOnReimport : bool;
  (* SDF *)
  GenerateSDF : bool;
  SDFResolution : float;
  (* Splitting *)
  SplitObjects : bool;
  ObjectIndex : int32;
  SplitContext : pointer;
  OnSplitImport : option SplitCallback
}.

(** The default member initialisers: the value of [Options()]. *)
Definition Options_default `{EngineTypes} : Options := {|
  Type_ := Model;
  CalculateNormals := false;
  SmoothingNormalsAngle := 175.0%Q;
  FlipNormals := false;
  CalculateTangents := false;
  SmoothingTangentsAngle := 45.0%Q;
  OptimizeMeshes := true;
  MergeMeshes := true;
  ImportLODs := true;
  ImportVertexColors := true;
  ImportBlendShapes := false;
  LightmapUVsSource := ModelLightmapUVsSource_Disable;
  CollisionMeshesPrefix := "";
  Scale := 1.0%Q;
  Rotation := Quaternion_Identity;
  Translation := Float3_Zero;
  CenterGeometry := false;
  Duration := Imported;
  FramesRange := Float2_Zero;
  DefaultFrameRate := 0.0%Q;
  SamplingRate := 0.0%Q;
  SkipEmptyCurves := true;
  OptimizeKeyframes := true;
  ImportScaleTracks := false;
  EnableRootMotion := false;
  RootNodeName := "";
  GenerateLODs := false;
  BaseLOD := 0;
  LODCount := 4;
  TriangleReduction := 0.5%Q;
  ImportMaterials := true;
  ImportTextures := true;
  RestoreMaterialsOnReimport := true;
  GenerateSDF := false;
  SDFResolution := 1.0%Q;
  SplitObjects := false;
  ObjectIndex := -1;
  SplitContext := nullptr;
  OnSplitImport := None
|}.

(** * GenerateModelSDF (ModelTool.h, line 187) *)







(** * Stateful code: a state monad with faults *)

Definition Run (S A : Type) : Type := S -> Outcome (A * S).

Definition ret {S A} (a : A) : Run S A := fun s => Returned (a, s).

Definition bind {S A B} (m : Run S A) (k : A -> Run S B) : Run S B :=
  fun s =>
    match m s with
    | Returned (a, s') => k a s'
    | Fault f => Fault f
    | OutOfFuel => OutOfFuel
    end.

Definition fault {S A} (f : FaultKind) : Run S A := fun _ => Fault f.
Definition out_of_fuel {S A} : Run S A := fun _ => OutOfFuel.
Definition get {S} : Run S S := fun s => Returned (s, s).
Definition modify {S} (f : S -> S) : Run S unit := fun s => Returned (tt, f s).

Declare Scope run_scope.
Delimit Scope run_scope with run.
Notation "x <- m ;; k" := (bind m (fun x => k))
  (at level 100, m at next level, right associativity) : run_scope.
Notation "m ;; k" := (bind m (fun _ => k))
  (at level 100, right associativity) : run_scope.

(** * ImportedModelData (ModelTool.h, lines 60-143) *)

(** [LOD::Meshes] is an [Array<MeshData*>]. *)
Record LOD := { Meshes : list pointer }.

(** The members the constructor and the destructor body name; the other
    members (textures, materials, skeleton, nodes, animation) are not
    touched by either. *)
Record ImportedModelData := {
  Types : int32;
  LODs : list LOD
}.

(** [ImportedModelData(ImportDataTypes types)]. *)
Definition ImportedModelData_new (types : int32) : ImportedModelData :=
  {| Types := types; LODs := [] |}.

(** The heap of mesh records: the addresses that hold a live object, and
    the [Delete] calls made so far, oldest first. *)
Record Heap := {
  live : gset pointer;
  deleted : list pointer
}.

(** [Delete(p)] releases a live object; on anything else it has no defined
    behaviour. *)
Definition Delete (p : pointer) : Run Heap unit :=
  fun h =>
    if decide (p ∈ live h)
    then Returned (tt, {| live := live h ∖ {[p]}; deleted := deleted h ++ [p] |})
    else Fault InvalidDelete.

(** Modelled from the spec: [Array<T*>::ClearDelete] is defined outside the
    sources.  Section 3: destruction releases all owned mesh records; so
    every item that is not null is deleted, front to back, and the array is
    then cleared. *)
Fixpoint delete_items (items : list pointer) : Run Heap unit :=
  match items with
  | [] => ret tt
  | p :: rest =>
      ((if decide (p = nullptr) then ret tt else Delete p);;
       delete_items rest)%run
  end.

Definition ClearDelete (items : list pointer) : Run Heap (list pointer) :=
  (delete_items items;; ret [])%run.

Definition Count {A} (items : list A) : int32 := Z.of_nat (length items).

(** The loop [for (int32 i = 0; i < LODs.Count(); i++)
    LODs[i].Meshes.ClearDelete();] from iteration [i] on. *)
Fixpoint destructor_loop (fuel : nat) (i : int32) (lods : list LOD)
    : Run Heap (list LOD) :=
  match fuel with
  | O => out_of_fuel
  | S fuel' =>
    if i <? Count lods then
      match at_index lods i with
      | None => fault IndexOutOfRange
      | Some lod =>
          (meshes <- ClearDelete (Meshes lod);;
           destructor_loop fuel' (i + 1)
             (<[Z.to_nat i := {| Meshes := meshes |}]> lods))%run
      end
    else ret lods
  end.

(** [~ImportedModelData()]. *)
Definition ImportedModelData_destructor (fuel : nat) (this : ImportedModelData)
    : Run Heap ImportedModelData :=
  (lods <- destructor_loop fuel 0 (LODs this);;
   ret {| Types := Types this; LODs := lods |})%run.

Definition non_null (items : list pointer) : list pointer :=
  filter (fun p => p ≠ nullptr) items.

(** The mesh records an instance owns: the non-null entries of all its
    LODs, in order. *)
Definition owned_meshes (this : ImportedModelData) : list pointer :=
  non_null (concat (map Meshes (LODs this))).

(** What the destructor leaves of a LOD. *)
Definition cleared (lod : LOD) : LOD := {| Meshes := [] |}.

(** Exclusive ownership (section 3): no record is held twice, and every
    record held is a live object. *)
Definition exclusively_owned (this : ImportedModelData) (h : Heap) : Prop :=
  NoDup (owned_meshes this) /\ forall p, p ∈ owned_meshes this -> p ∈ live h.

(** A sample instance: two LODs, three records, one null slot. *)
Definition sample_model : ImportedModelData :=
  {| Types := ImportDataTypes.Geometry;
     LODs := [ {| Meshes := [16; 32]%N |}; {| Meshes := [nullptr; 48%N] |} ] |}.
Definition sample_heap : Heap :=
  {| live := {[ 16%N; 32%N; 48%N; 64%N ]}; deleted := [] |}.

(** * Shader import (ImportShader.cpp) *)

Definition byte := Byte.byte.

(** [StringAnsi]: the characters without the terminator; [Length()] is
    their number, an [int32].  Texts of 2^31 - 1 characters or more, on
    which [sourceCodeSize + 1] would overflow, are outside the model. *)
Definition StringAnsi := list byte.
Definition Length (text : StringAnsi) : int32 := Z.of_nat (length text).

Definition Guid := N.

(** [CreateAssetResult] is declared outside the sources; [Import] returns
    four of its values. *)
Inductive CreateAssetResult :=
| Ok | Abort | Error | CannotSaveFile | InvalidPath | CannotAllocateChunk
| InvalidTypeID.

Module LogType.
Inductive t := Info | Warning | Error | Fatal.
End LogType.

(** [FlaxChunk]: [Data] is its byte container. *)
Module FlaxChunk.
Record t := mk { Data : list byte }.
End FlaxChunk.

Record AssetHeader := {
  ID : Guid;
  TypeName : string;
  Chunks : list (option FlaxChunk.t)     (* FlaxChunk* Chunks[...] *)
}.

Record AssetInitData := {
  Header : AssetHeader;
  SerializedVersion : int32;
  CustomData : list byte
}.

Record CreateAssetContext := {
  InputPath : string;
  SkipMetadata : bool;
  Data : AssetInitData
}.

(** What an import can touch: its context, the shader cache and the log. *)
Record World := {
  context : CreateAssetContext;
  ShaderCache : gmap Guid (list byte);
  Log : list (LogType.t * string)
}.

Definition set_SkipMetadata (v : bool) (c : CreateAssetContext)
    : CreateAssetContext :=
  {| InputPath := InputPath c; SkipMetadata := v; Data := Data c |}.

Definition set_Chunks (chunks : list (option FlaxChunk.t))
    (c : CreateAssetContext) : CreateAssetContext :=
  {| InputPath := InputPath c; SkipMetadata := SkipMetadata c;
     Data := {| Header := {| ID := ID (Header (Data c));
                             TypeName := TypeName (Header (Data c));
                             Chunks := chunks |};
                SerializedVersion := SerializedVersion (Data c);
                CustomData := CustomData (Data c) |} |}.

Definition set_CustomData (bytes : list byte) (c : CreateAssetContext)
    : CreateAssetContext :=
  {| InputPath := InputPath c; SkipMetadata := SkipMetadata c;
     Data := {| Header := Header (Data c);
                SerializedVersion := SerializedVersion (Data c);
                CustomData := bytes |} |}.

Definition set_context (c : CreateAssetContext) (w : World) : World :=
  {| context := c; ShaderCache := ShaderCache w; Log := Log w |}.

(** [context.Data.Header.Chunks[index]], a chunk pointer. *)
Definition chunk_pointer (c : CreateAssetContext) (index : int32)
    : option (option FlaxChunk.t) :=
  at_index (Chunks (Header (Data c))) index.

(** The collaborators of [ImportShader::Import] whose definitions are
    outside the sources, and the build switch it tests. *)
Class ShaderImportEnv := {
  (* #if COMPILE_WITH_SHADER_CACHE_MANAGER *)
  COMPILE_WITH_SHADER_CACHE_MANAGER : bool;
  (* the macro IMPORT_SETUP(type, serializedVersion) *)
  IMPORT_SETUP : string -> int32 -> CreateAssetContext -> CreateAssetContext;
  (* File::ReadAllText: the converted text, or None where it returns true *)
  File_ReadAllText : string -> option StringAnsi;
  (* context.AllocateChunk(index): the flag returned, true on failure *)
  AllocateChunk : int32 -> CreateAssetContext -> bool * CreateAssetContext;
  (* Encryption::EncryptBytes on a buffer holding these bytes *)
  EncryptBytes : list byte -> list byte;
  (* sizeof(ShaderStorage::Header20) *)
  sizeof_Header20 : nat;
  (* what freshly allocated memory holds at each offset *)
  uninitialized : nat -> byte
}.

(** What is assumed of them: the setup macro and the chunk allocation leave
    the input path and the asset identity alone, a successful allocation
    leaves a chunk at the index, and encryption is in place (it keeps the
    size). *)
Class ShaderImportEnvLaws `{ShaderImportEnv} : Prop := {
  IMPORT_SETUP_InputPath ty v c :
    InputPath (IMPORT_SETUP ty v c) = InputPath c;
  IMPORT_SETUP_ID ty v c :
    ID (Header (Data (IMPORT_SETUP ty v c))) = ID (Header (Data c));
  AllocateChunk_InputPath i c :
    InputPath (AllocateChunk i c).2 = InputPath c;
  AllocateChunk_ID i c :
    ID (Header (Data (AllocateChunk i c).2)) = ID (Header (Data c));
  AllocateChunk_allocated i c :
    (AllocateChunk i c).1 = false ->
    exists chunk, chunk_pointer (AllocateChunk i c).2 i = Some (Some chunk);
  EncryptBytes_length bytes :
    length (EncryptBytes bytes) = length bytes
}.

(** [Data.Allocate(size)]: a buffer of [size] bytes, contents unspecified;
    the memory is taken to be available. *)
Definition Allocate `{ShaderImportEnv} (size : int32) : list byte :=
  map uninitialized (seq 0 (Z.to_nat size)).

(** [Platform::MemoryCopy(dst, src, size)]. *)
Definition MemoryCopy (dst src : list byte) (size : int32) : list byte :=
  take (Z.to_nat size) src ++ drop (Z.to_nat size) dst.

(** [Encryption::EncryptBytes(data, size)] on the first [size] bytes of a
    buffer. *)
Definition EncryptBytes_in_place `{ShaderImportEnv}
    (data : list byte) (size : int32) : list byte :=
  EncryptBytes (take (Z.to_nat size) data) ++ drop (Z.to_nat size) data.

(** Modelled from the spec: [ShaderCacheManager::RemoveCache] is defined
    outside the sources.  Section 5: the shader cache is keyed by asset
    identity and is invalidated on reimport; removing an identity drops its
    entry. *)
Definition RemoveCache (id : Guid) : Run World unit :=
  modify (fun w => {| context := context w;
                      ShaderCache := delete id (ShaderCache w);
                      Log := Log w |}).

(** [LOG(type, message)]. *)
Definition LOG (type : LogType.t) (message : string) : Run World unit :=
  modify (fun w => {| context := context w;
                      ShaderCache := ShaderCache w;
                      Log := Log w ++ [(type, message)] |}).

Section ImportShader.
Context `{ShaderImportEnv}.
Local Open Scope run_scope.

(** [sourceCodeChunk->Data = data], through the pointer in the chunk
    table. *)
Definition write_chunk (index : int32) (data : list byte) : Run World unit :=
  w <- get;;
  match chunk_pointer (context w) index with
  | None => fault IndexOutOfRange
  | Some None => fault NullDereference
  | Some (Some _) =>
      modify (fun w =>
        set_context
          (set_Chunks (<[Z.to_nat index := Some (FlaxChunk.mk data)]>
                         (Chunks (Header (Data (context w)))))
                      (context w)) w)
  end.

Definition call_AllocateChunk (index : int32) : Run World bool :=
  w <- get;;
  modify (set_context (AllocateChunk index (context w)).2);;
  ret (AllocateChunk index (context w)).1.

(** [ImportShader::Import(CreateAssetContext& context)]. *)
Definition Import : Run World CreateAssetResult :=
  (* Base *)
  modify (fun w => set_context (IMPORT_SETUP "Shader" 20 (context w)) w);;
  let SourceCodeChunk : int32 := 15 in
  modify (fun w => set_context (set_SkipMetadata true (context w)) w);;
  (* Read text *)
  w <- get;;
  match File_ReadAllText (InputPath (context w)) with
  | None => ret InvalidPath
  | Some sourceCodeText =>
    (* Load source code *)
    failed <- call_AllocateChunk SourceCodeChunk;;
    if failed then ret CannotAllocateChunk
    else
      let sourceCodeSize := Length sourceCodeText in
      if sourceCodeSize <? 10 then
        LOG LogType.Warning "Empty shader source file.";;
        ret Error
      else
        let sourceCode := Allocate (sourceCodeSize + 1) in
        let sourceCode := MemoryCopy sourceCode sourceCodeText sourceCodeSize in
        (* Encrypt source code *)
        let sourceCode := EncryptBytes_in_place sourceCode sourceCodeSize in
        let sourceCode := <[Z.to_nat sourceCodeSize := Byte.x00]> sourceCode in
        write_chunk SourceCodeChunk sourceCode;;
        (* Set Custom Data with Header *)
        let shaderHeader := replicate sizeof_Header20 Byte.x00 in
        modify (fun w => set_context (set_CustomData shaderHeader (context w)) w);;
        (* Invalidate shader cache *)
        (if COMPILE_WITH_SHADER_CACHE_MANAGER
         then w <- get;; RemoveCache (ID (Header (Data (context w))))
         else ret tt);;
        ret Ok
  end.
End ImportShader.

(** The context once the first three lines of [Import] have run. *)
Definition prepared `{ShaderImportEnv} (w : World) : CreateAssetContext :=
  set_SkipMetadata true (IMPORT_SETUP "Shader" 20 (context w)).

(** ** A sample environment

    One way the collaborators can behave, used to run [Import] on concrete
    inputs: the setup macro tags the asset with its type name and version,
    the file system holds two shader files, the chunk table has sixteen
    slots and an allocation fails on a slot that is taken, and encryption
    is a byte-wise exclusive or with a key. *)

Definition sample_IMPORT_SETUP (type : string) (serializedVersion : int32)
    (c : CreateAssetContext) : CreateAssetContext :=
  {| InputPath := InputPath c; SkipMetadata := SkipMetadata c;
     Data := {| Header := {| ID := ID (Header (Data c));
                             TypeName := "FlaxEngine." +:+ type;
                             Chunks := Chunks (Header (Data c)) |};
                SerializedVersion := serializedVersion;
                CustomData := CustomData (Data c) |} |}.

Definition sample_source : StringAnsi :=
  String.list_byte_of_string "float4 PS_Main() : SV_Target { return 1; }".
Definition short_source : StringAnsi := String.list_byte_of_string "// empty".

Definition sample_files (path : string) : option StringAnsi :=
  if String.eqb path "Shaders/Main.shader" then Some sample_source
  else if String.eqb path "Shaders/Stub.shader" then Some short_source
  else None.

Definition sample_AllocateChunk (index : int32) (c : CreateAssetContext)
    : bool * CreateAssetContext :=
  match chunk_pointer c index with
  | Some None =>
      (false, set_Chunks (<[Z.to_nat index := Some (FlaxChunk.mk [])]>
                            (Chunks (Header (Data c)))) c)
  | _ => (true, c)
  end.

Definition xor_byte (key b : byte) : byte :=
  default Byte.x00 (Byte.of_N (N.lxor (Byte.to_N key) (Byte.to_N b))).

Definition sample_env (cache_manager : bool) : ShaderImportEnv :=
  {| COMPILE_WITH_SHADER_CACHE_MANAGER := cache_manager;
     IMPORT_SETUP := sample_IMPORT_SETUP;
     File_ReadAllText := sample_files;
     AllocateChunk := sample_AllocateChunk;
     EncryptBytes := map (xor_byte Byte.x5a);
     sizeof_Header20 := 4;
     uninitialized := fun _ => Byte.xcd |}.

Definition sample_context (path : string) (chunks : list (option FlaxChunk.t))
    : CreateAssetContext :=
  {| InputPath := path; SkipMetadata := false;
     Data := {| Header := {| ID := 7%N; TypeName := ""; Chunks := chunks |};
                SerializedVersion := 0;
                CustomData := [] |} |}.

(** A world whose cache holds entries for the asset being imported (7) and
    for another asset (8). *)
Definition sample_world (path : string) (chunks : list (option FlaxChunk.t))
    : World :=
  {| context := sample_context path chunks;
     ShaderCache := {[ 7%N := [Byte.x01]; 8%N := [Byte.x02] ]};
     Log := [] |}.

Definition free_chunks : list (option FlaxChunk.t) := replicate 16 None.
Definition taken_chunks : list (option FlaxChunk.t) :=
  <[15%nat := Some (FlaxChunk.mk [])]> free_chunks.

(** * Further definitions used by the properties below *)



(** Composition continued along a further stretch of a chain. *)
Definition extend_chain {Transform Node : Type}
    `{!TransformOps Transform, !NodeLike Transform Node}
    (start : Transform) (path : list (int32 * Node)) : Transform :=
  fold_left (fun parent entry => LocalToWorld parent (LocalTransform entry.2))
            path start.

(** A hierarchy whose node 1 names a parent that is not in the array. *)
Definition broken_nodes : list (ImportedNode.Node TransformTerm) :=
  [term_node (-1) 0; term_node 5 1; term_node 1 2].

(** * Properties *)

(** ** The resolver *)

Section ResolverFacts.
Context {Transform Node : Type}.
Context `{!TransformOps Transform, !NodeLike Transform Node}.
Implicit Types (nodes : list Node) (rootIndex index : int32).

Lemma stops_at_false rootIndex index :
  stops_at rootIndex index = false -> (index =? rootIndex) = false.
Proof. unfold stops_at. intros Hs. by apply orb_false_elim in Hs as [_ ?]. Qed.

(** Climbing [a + b] links is climbing [a] and then [b]. *)
Lemma climb_add a b nodes rootIndex i :
  climb (a + b) nodes rootIndex i =
  climb a nodes rootIndex i ≫= climb b nodes rootIndex.
Proof.
  revert i. induction a as [|a IH]; intros i; simpl; [done|].
  destruct (stops_at rootIndex i); [done|].
  destruct (at_index nodes i); [apply IH | done].
Qed.

Lemma climb_shorter a b nodes rootIndex i :
  (a <= b)%nat ->
  is_Some (climb b nodes rootIndex i) -> is_Some (climb a nodes rootIndex i).
Proof.
  intros Hle [j Hj]. replace b with (a + (b - a))%nat in Hj by lia.
  rewrite climb_add in Hj.
  destruct (climb a nodes rootIndex i); [eauto | done].
Qed.

(** Going round a cycle any number of times comes back to it. *)
Lemma climb_round k q nodes rootIndex c :
  climb k nodes rootIndex c = Some c ->
  climb (q * k) nodes rootIndex c = Some c.
Proof.
  intros Hk. induction q as [|q IH]; simpl; [done|].
  by rewrite climb_add, Hk.
Qed.

Lemma cycle_climbs_forever nodes rootIndex index :
  CycleReachable nodes rootIndex index ->
  forall n, is_Some (climb n nodes rootIndex index).
Proof.
  intros (m & k & c & Hm & Hk & Hc) n.
  apply (climb_shorter n (m + n * k)); [nia|].
  rewrite climb_add, Hm. simpl. rewrite (climb_round k n); eauto.
Qed.

(** As long as the climb goes on, the call has not returned. *)
Lemma climbing_not_returned fuel nodes rootIndex index :
  is_Some (climb fuel nodes rootIndex index) ->
  CombineTransformsFromNodeIndices fuel nodes rootIndex index = OutOfFuel.
Proof.
  revert index. induction fuel as [|fuel IH]; intros index; [done|].
  simpl. fold (stops_at rootIndex index).
  destruct (stops_at rootIndex index) eqn:Hs; [by intros [? ?]|].
  destruct (at_index nodes index) as [node|]; [|by intros [? ?]].
  intros Hc. rewrite (stops_at_false _ _ Hs). simpl. by rewrite IH.
Qed.
End ResolverFacts.

Section ResolverClaims.
Context {Transform Node : Type}.
Context `{!TransformOps Transform, !NodeLike Transform Node}.
Implicit Types (nodes : list Node) (rootIndex index : int32).

(** C1 (as amended): the resolver has no cycle check and no error result.
    When a parent-index cycle, or a node that is its own parent, can be
    reached from the target index without passing [rootIndex] or [-1], the
    call never returns: whatever the recursion budget, it is still
    recursing when the budget is used up. *)
Theorem cycle_recurses_unboundedly nodes rootIndex index :
  CycleReachable nodes rootIndex index ->
  forall fuel,
    CombineTransformsFromNodeIndices fuel nodes rootIndex index = OutOfFuel.
Proof.
  intros Hcycle fuel. apply climbing_not_returned.
  by apply cycle_climbs_forever.
Qed.

(** C10: with the inner test [if (index != rootIndex)] removed the function
    computes the same thing, on every input and at every recursion budget:
    the test is reached only after [index == rootIndex] has been ruled out,
    so its branch is always taken. *)
Theorem inner_test_is_redundant fuel nodes rootIndex index :
  CombineTransformsFromNodeIndices fuel nodes rootIndex index =
  CombineTransforms_simplified fuel nodes rootIndex index.
Proof.
  revert index. induction fuel as [|fuel IH]; intros index; [done|].
  simpl. destruct ((index =? -1) || (index =? rootIndex)) eqn:Hstop; [done|].
  apply orb_false_elim in Hstop as [_ Hroot].
  destruct (at_index nodes index) as [node|]; [|done].
  rewrite Hroot. simpl. by rewrite IH.
Qed.
End ResolverClaims.

(** On the array whose nodes 1 and 2 point at each other, resolving node 1
    under root 0 meets a cycle and never terminates, so nothing is
    reported. *)
Lemma cycle_not_rejected :
  CycleReachable cyclic_nodes 0 1 /\
  ~ exists fuel,
      terminated (CombineTransformsFromNodeIndices fuel cyclic_nodes 0 1) = true.
Proof.
  assert (Hcycle : CycleReachable cyclic_nodes 0 1).
  { exists 0%nat, 2%nat, 1. split; [reflexivity | split; [lia | reflexivity]]. }
  split; [done|]. intros [fuel Hfuel].
  rewrite climbing_not_returned in Hfuel; [done|].
  by apply cycle_climbs_forever.
Qed.

Lemma cycle_recurses_unboundedly_witness :
  CycleReachable selfref_nodes 0 1 /\
  forall fuel,
    CombineTransformsFromNodeIndices fuel selfref_nodes 0 1 = OutOfFuel.
Proof.
  assert (Hcycle : CycleReachable selfref_nodes 0 1).
  { exists 0%nat, 1%nat, 1. split; [reflexivity | split; [lia | reflexivity]]. }
  split; [exact Hcycle|].
  exact (cycle_recurses_unboundedly selfref_nodes 0 1 Hcycle).
Defined.

Section ChainFacts.
Context {Transform Node : Type}.
Context `{!TransformOps Transform, !NodeLike Transform Node}.
Implicit Types (nodes : list Node) (rootIndex index : int32).
Implicit Types (path : list (int32 * Node)).

(** An index has at most one parent chain. *)
Lemma ParentChain_unique nodes rootIndex index path1 path2 :
  ParentChain nodes rootIndex index path1 ->
  ParentChain nodes rootIndex index path2 ->
  path1 = path2.
Proof.
  intros H1. revert path2.
  induction H1 as [index Hs|index node path Hs Hat _ IH]; intros path2 H2.
  - inversion H2; [done | congruence].
  - inversion H2 as [|index' node' path' Hs' Hat' Hp']; subst; [congruence|].
    assert (node' = node) as -> by congruence.
    by rewrite (IH path').
Qed.

(** Every entry of a chain is a node of the array under its own index. *)
Lemma ParentChain_entries nodes rootIndex index path :
  ParentChain nodes rootIndex index path ->
  Forall (fun entry => at_index nodes entry.1 = Some entry.2) path.
Proof.
  induction 1 as [|index node path Hs Hat _ IH]; [constructor|].
  apply Forall_app. split; [done|]. by repeat constructor.
Qed.

(** The chain of a node found on a chain is an initial part of it. *)
Lemma ParentChain_inner nodes rootIndex index path i :
  ParentChain nodes rootIndex index path ->
  i ∈ path.*1 ->
  exists path', ParentChain nodes rootIndex i path' /\
                (length path' <= length path)%nat.
Proof.
  induction 1 as [|index node path Hs Hat Hp IH]; simpl.
  - intros Hin. by apply elem_of_nil in Hin.
  - rewrite fmap_app, elem_of_app. simpl. intros [Hin|Hin].
    + destruct (IH Hin) as (path' & Hp' & Hlen).
      exists path'. split; [done|]. rewrite length_app. lia.
    + apply list_elem_of_singleton in Hin as ->.
      exists (path ++ [(index, node)]). split; [|done].
      by apply chain_link.
Qed.

(** No index occurs twice on a chain. *)
Lemma ParentChain_NoDup nodes rootIndex index path :
  ParentChain nodes rootIndex index path -> NoDup path.*1.
Proof.
  induction 1 as [|index node path Hs Hat Hp IH]; simpl; [constructor|].
  rewrite fmap_app. apply NoDup_app. split; [done|]. split.
  - intros i Hin Hlast. simpl in Hlast.
    apply list_elem_of_singleton in Hlast as ->.
    destruct (ParentChain_inner _ _ _ _ _ Hp Hin) as (path' & Hp' & Hlen).
    pose proof (chain_link _ _ _ _ _ Hs Hat Hp) as Hfull.
    pose proof (ParentChain_unique _ _ _ _ _ Hp' Hfull) as ->.
    rewrite length_app in Hlen. simpl in Hlen. lia.
  - simpl. apply NoDup_singleton.
Qed.

Lemma compose_chain_snoc path index node :
  compose_chain (path ++ [(index, node)]) =
  LocalToWorld (compose_chain path) (LocalTransform node).
Proof. unfold compose_chain. by rewrite fold_left_app. Qed.

(** With a budget above the length of the chain the call returns the
    composition along it. *)
Lemma ParentChain_returns nodes rootIndex index path :
  ParentChain nodes rootIndex index path ->
  forall fuel, (length path < fuel)%nat ->
    CombineTransformsFromNodeIndices fuel nodes rootIndex index =
    Returned (compose_chain path).
Proof.
  induction 1 as [index Hs|index node path Hs Hat Hp IH]; intros fuel Hfuel.
  - destruct fuel as [|fuel]; [simpl in Hfuel; lia|].
    simpl. fold (stops_at rootIndex index). by rewrite Hs.
  - rewrite length_app in Hfuel. simpl in Hfuel.
    destruct fuel as [|fuel]; [lia|].
    simpl. fold (stops_at rootIndex index).
    rewrite Hs, Hat, (stops_at_false _ _ Hs). simpl.
    rewrite IH by lia. by rewrite compose_chain_snoc.
Qed.

(** Conversely the call returns only along a parent chain: a returned
    value is the composition along the chain of [index]. *)
Lemma returned_along_chain fuel nodes rootIndex index t :
  CombineTransformsFromNodeIndices fuel nodes rootIndex index = Returned t ->
  exists path,
    ParentChain nodes rootIndex index path /\
    (length path < fuel)%nat /\ t = compose_chain path.
Proof.
  revert index t. induction fuel as [|fuel IH]; intros index t; [done|].
  simpl. fold (stops_at rootIndex index).
  destruct (stops_at rootIndex index) eqn:Hs.
  - intros [= <-]. exists []. split; [by apply chain_stop|]. simpl.
    split; [lia|done].
  - destruct (at_index nodes index) as [node|] eqn:Hat; [|done].
    rewrite (stops_at_false _ _ Hs). simpl.
    destruct (CombineTransformsFromNodeIndices fuel nodes rootIndex
                (ParentIndex node)) as [parent| |] eqn:Hparent; try done.
    intros [= <-]. destruct (IH _ _ Hparent) as (path & Hp & Hlen & ->).
    exists (path ++ [(index, node)]). split; [by apply chain_link|].
    rewrite length_app, compose_chain_snoc. simpl. split; [lia|done].
Qed.
End ChainFacts.

Section ChainClaim.
Context {Transform Node : Type}.
Context `{!TransformOps Transform, !NodeLike Transform Node}.

(** C2: when the parent chain of [index] is finite and ends at [rootIndex]
    or at [-1], the call returns, at every recursion budget above the
    length of the chain, the identity if [index] is [-1] or [rootIndex],
    and otherwise the local transforms of the chain composed with
    [LocalToWorld], parent applied to child, from the node under the root
    down to [index]; every entry of the chain is a node of the array, and
    no node occurs on it twice. *)
Theorem resolves_along_parent_chain
    (nodes : list Node) (rootIndex index : int32)
    (path : list (int32 * Node)) :
  ParentChain nodes rootIndex index path ->
  (forall fuel, (length path < fuel)%nat ->
     CombineTransformsFromNodeIndices fuel nodes rootIndex index =
     Returned (fold_left
                 (fun parent entry => LocalToWorld parent (LocalTransform entry.2))
                 path Identity)) /\
  (index = -1 \/ index = rootIndex ->
     path = [] /\
     forall fuel, (0 < fuel)%nat ->
       CombineTransformsFromNodeIndices fuel nodes rootIndex index =
       Returned Identity) /\
  Forall (fun entry => at_index nodes entry.1 = Some entry.2) path /\
  NoDup path.*1.
Proof.
  intros Hchain. split; [|split; [|split]].
  - apply (ParentChain_returns _ _ _ _ Hchain).
  - intros Hbase.
    assert (path = []) as ->.
    { inversion Hchain as [|i node p Hs]; [done|]. subst.
      unfold stops_at in Hs. apply orb_false_elim in Hs as [H1 H2]. lia. }
    split; [done|]. intros fuel Hfuel.
    apply (ParentChain_returns _ _ _ _ Hchain). simpl. lia.
  - by apply (ParentChain_entries _ rootIndex index).
  - by apply (ParentChain_NoDup nodes rootIndex index).
Qed.
End ChainClaim.

Lemma resolves_along_parent_chain_witness :
  ParentChain chain_nodes 0 2 [(1, term_node 0 1); (2, term_node 1 2)] /\
  CombineTransformsFromNodeIndices 3 chain_nodes 0 2 =
  Returned (LocalToWorldTerm (LocalToWorldTerm IdentityTerm (LocalTerm 1))
                             (LocalTerm 2)).
Proof.
  assert (Hchain :
    ParentChain chain_nodes 0 2 [(1, term_node 0 1); (2, term_node 1 2)]).
  { apply (chain_link chain_nodes 0 2 (term_node 1 2) [(1, term_node 0 1)]);
      [reflexivity | reflexivity |].
    apply (chain_link chain_nodes 0 1 (term_node 0 1) []);
      [reflexivity | reflexivity |].
    apply chain_stop. reflexivity. }
  split; [exact Hchain|].
  exact (proj1 (resolves_along_parent_chain chain_nodes 0 2 _ Hchain) 3%nat
               ltac:(simpl; lia)).
Defined.

(** ** Options and GenerateModelSDF *)

(** C3: a default-constructed [Options] has the documented value in every
    field. *)
Theorem Options_default_values `{EngineTypes} :
  let o := Options_default in
  Type_ o = Model /\
  CalculateNormals o = false /\
  (SmoothingNormalsAngle o == 175)%Q /\
  FlipNormals o = false /\
  CalculateTangents o = false /\
  (SmoothingTangentsAngle o == 45)%Q /\
  OptimizeMeshes o = true /\
  MergeMeshes o = true /\
  ImportLODs o = true /\
  ImportVertexColors o = true /\
  ImportBlendShapes o = false /\
  LightmapUVsSource o = ModelLightmapUVsSource_Disable /\
  CollisionMeshesPrefix o = "" /\
  (Scale o == 1)%Q /\
  Rotation o = Quaternion_Identity /\
  Translation o = Float3_Zero /\
  CenterGeometry o = false /\
  Duration o = Imported /\
  ((X (FramesRange o) == 0)%Q /\ (Y (FramesRange o) == 0)%Q) /\
  (DefaultFrameRate o == 0)%Q /\
  (SamplingRate o == 0)%Q /\
  SkipEmptyCurves o = true /\
  OptimizeKeyframes o = true /\
  ImportScaleTracks o = false /\
  EnableRootMotion o = false /\
  RootNodeName o = "" /\
  GenerateLODs o = false /\
  BaseLOD o = 0 /\
  LODCount o = 4 /\
  (TriangleReduction o == 1 # 2)%Q /\
  ImportMaterials o = true /\
  ImportTextures o = true /\
  RestoreMaterialsOnReimport o = true /\
  GenerateSDF o = false /\
  (SDFResolution o == 1)%Q /\
  SplitObjects o = false /\
  ObjectIndex o = -1.
Proof. simpl. repeat split. Qed.



(** ** Destruction of ImportedModelData *)

(** Deleting distinct live records releases exactly them, in order. *)
Lemma delete_items_releases items h :
  NoDup (non_null items) ->
  (forall p, p ∈ non_null items -> p ∈ live h) ->
  delete_items items h =
  Returned (tt, {| live := live h ∖ list_to_set (non_null items);
                   deleted := deleted h ++ non_null items |}).
Proof.
  revert h. induction items as [|p rest IH]; intros h Hnd Hlive.
  - simpl. unfold ret. f_equal. f_equal. destruct h as [lv dl]. simpl.
    f_equal; [set_solver | by rewrite app_nil_r].
  - simpl. unfold bind. unfold non_null in *.
    destruct (decide (p = nullptr)) as [->|Hp].
    + rewrite filter_cons_False in * by (intros ?; done).
      unfold ret. by apply IH.
    + rewrite filter_cons_True in * by done.
      apply NoDup_cons in Hnd as [Hnotin Hnd].
      unfold Delete. rewrite decide_True by (apply Hlive; left).
      rewrite IH; simpl; [|done|].
      * f_equal. f_equal. f_equal; [set_solver|by rewrite <- app_assoc].
      * intros q Hq. apply elem_of_difference. split.
        { apply Hlive. by right. }
        { intros ->%elem_of_singleton. done. }
Qed.

Lemma non_null_app items1 items2 :
  non_null (items1 ++ items2) = non_null items1 ++ non_null items2.
Proof. unfold non_null. apply filter_app. Qed.

(** The loop from iteration [length done] on, with [done] behind it and
    [rest] ahead: it clears every LOD of [rest] and releases their
    records. *)
Lemma destructor_loop_releases rest :
  forall done fuel h,
    (length rest < fuel)%nat ->
    NoDup (non_null (concat (map Meshes rest))) ->
    (forall p, p ∈ non_null (concat (map Meshes rest)) -> p ∈ live h) ->
    destructor_loop fuel (Z.of_nat (length done)) (done ++ rest) h =
    Returned (done ++ (cleared <$> rest),
              {| live := live h ∖ list_to_set (non_null (concat (map Meshes rest)));
                 deleted := deleted h ++ non_null (concat (map Meshes rest)) |}).
Proof.
  induction rest as [|lod rest IH]; intros done fuel h Hfuel Hnd Hlive.
  - destruct fuel as [|fuel]; [simpl in Hfuel; lia|].
    simpl. unfold Count. rewrite app_nil_r.
    rewrite (proj2 (Z.ltb_ge _ _)) by lia.
    unfold ret. destruct h as [lv dl]. simpl.
    do 3 f_equal; [set_solver | by rewrite app_nil_r].
  - destruct fuel as [|fuel]; [simpl in Hfuel; lia|].
    simpl in Hfuel, Hnd, Hlive. rewrite non_null_app in Hnd, Hlive.
    apply NoDup_app in Hnd as (Hnd1 & Hdisj & Hnd2).
    cbn [destructor_loop]. unfold Count.
    rewrite (proj2 (Z.ltb_lt _ _)) by (rewrite length_app; simpl; lia).
    unfold at_index. rewrite (proj2 (Z.ltb_ge _ _)) by lia.
    rewrite Nat2Z.id, list_lookup_middle by done.
    unfold bind at 1. unfold ClearDelete. unfold bind at 1.
    rewrite delete_items_releases; [|done|].
    2:{ intros p Hp. apply Hlive, elem_of_app. by left. }
    unfold ret at 1.
    rewrite insert_app_r_alt, Nat.sub_diag by done. cbn [insert list_insert].
    replace (Z.of_nat (length done) + 1) with (Z.of_nat (length (done ++ [cleared lod])))
      by (rewrite length_app; simpl; lia).
    change {| Meshes := [] |} with (cleared lod).
    rewrite (cons_middle (cleared lod) done rest), app_assoc.
    rewrite IH; [|lia|done|].
    + simpl. rewrite non_null_app, list_to_set_app_L.
      rewrite <- !app_assoc. simpl.
      do 3 f_equal. set_solver.
    + simpl. intros p Hp. apply elem_of_difference. split.
      * apply Hlive, elem_of_app. by right.
      * intros Hin%elem_of_list_to_set. by apply (Hdisj p).
Qed.

(** In a list without repetition an element occurs once. *)
Lemma occurs_once (items : list pointer) (p : pointer) :
  NoDup items -> p ∈ items ->
  length (filter (fun q => q = p) items) = 1%nat.
Proof.
  induction 1 as [|q items Hq Hnd IH]; intros Hp; [by apply elem_of_nil in Hp|].
  destruct (decide (q = p)) as [->|Hne].
  - rewrite filter_cons_True by done. simpl. f_equal.
    clear -Hq. induction items as [|r items IH]; [done|].
    apply not_elem_of_cons in Hq as [Hr Hq].
    rewrite filter_cons_False by congruence. by apply IH.
  - rewrite filter_cons_False by done. apply IH.
    apply elem_of_cons in Hp as [->|Hp]; done.
Qed.

(** C4: on an instance whose mesh records are exclusively owned, the
    destructor runs to completion, keeps the number of LODs, leaves the
    mesh list of every LOD empty, releases every record the instance held
    and calls [Delete] on each of them exactly once. *)
Theorem destructor_releases_all_meshes
    (this : ImportedModelData) (h : Heap) (fuel : nat) :
  exclusively_owned this h ->
  (length (LODs this) < fuel)%nat ->
  exists this' h',
    ImportedModelData_destructor fuel this h = Returned (this', h') /\
    length (LODs this') = length (LODs this) /\
    (forall i lod, LODs this' !! i = Some lod -> Meshes lod = []) /\
    live h' = live h ∖ list_to_set (owned_meshes this) /\
    deleted h' = deleted h ++ owned_meshes this /\
    (forall p, p ∈ owned_meshes this ->
       (p ∉ live h') /\ length (filter (fun q => q = p) (deleted h')) =
                      S (length (filter (fun q => q = p) (deleted h)))).
Proof.
  intros [Hnd Hlive] Hfuel.
  pose proof (destructor_loop_releases (LODs this) [] fuel h Hfuel Hnd Hlive)
    as Hloop.
  change (Z.of_nat (length (@nil LOD))) with 0 in Hloop.
  rewrite app_nil_l in Hloop.
  eexists _, _. split; [|split; [|split; [|split; [|split]]]].
  - unfold ImportedModelData_destructor, bind. rewrite Hloop. reflexivity.
  - simpl. by rewrite length_fmap.
  - simpl. intros i lod Hi. apply list_lookup_fmap_Some in Hi as (l0 & -> & _).
    done.
  - done.
  - done.
  - simpl. intros p Hp. split; [set_solver|].
    rewrite filter_app, length_app.
    fold (owned_meshes this). rewrite (occurs_once _ _ Hnd Hp). lia.
Qed.

Lemma destructor_releases_all_meshes_witness :
  exclusively_owned sample_model sample_heap /\
  exists this' h',
    ImportedModelData_destructor 3 sample_model sample_heap =
      Returned (this', h') /\
    length (LODs this') = 2%nat /\
    deleted h' = [16; 32; 48]%N.
Proof.
  assert (Hown : exclusively_owned sample_model sample_heap).
  { split.
    - vm_compute. repeat (constructor; [set_solver|]). constructor.
    - intros p. vm_compute. set_solver. }
  split; [exact Hown|].
  destruct (destructor_releases_all_meshes sample_model sample_heap 3 Hown
              ltac:(simpl; lia))
    as (this' & h' & Hrun & Hlen & _ & _ & Hdel & _).
  exists this', h'. split; [exact Hrun|]. split; [exact Hlen|exact Hdel].
Defined.

(** ** Shader import *)

Lemma at_index_insert {A} (items : list A) (index : int32) (x y : A) :
  at_index items index = Some y ->
  at_index (<[Z.to_nat index := x]> items) index = Some x.
Proof.
  unfold at_index. destruct (index <? 0); [done|].
  intros Hy. apply list_lookup_insert_eq. by eapply lookup_lt_Some.
Qed.

Lemma sample_env_laws cache_manager :
  @ShaderImportEnvLaws (sample_env cache_manager).
Proof.
  split; simpl; try done.
  - intros i c. unfold sample_AllocateChunk.
    by destruct (chunk_pointer c i) as [[?|]|].
  - intros i c. unfold sample_AllocateChunk.
    by destruct (chunk_pointer c i) as [[?|]|].
  - intros i c. unfold sample_AllocateChunk.
    destruct (chunk_pointer c i) as [[?|]|] eqn:Hp; try done.
    intros _. eexists. unfold chunk_pointer in *. simpl.
    by eapply at_index_insert.
  - intros bytes. apply length_map.
Qed.

Section ImportFacts.
Context `{ShaderImportEnvLaws}.

Lemma prepared_InputPath w : InputPath (prepared w) = InputPath (context w).
Proof. unfold prepared. simpl. apply IMPORT_SETUP_InputPath. Qed.

Lemma prepared_ID w :
  ID (Header (Data (prepared w))) = ID (Header (Data (context w))).
Proof. unfold prepared. simpl. apply IMPORT_SETUP_ID. Qed.

(** The bytes [Import] puts in the source-code chunk. *)
Lemma stored_source (text : StringAnsi) :
  <[Z.to_nat (Length text) := Byte.x00]>
    (EncryptBytes_in_place
       (MemoryCopy (Allocate (Length text + 1)) text (Length text))
       (Length text)) =
  EncryptBytes text ++ [Byte.x00].
Proof.
  unfold EncryptBytes_in_place, MemoryCopy, Allocate, Length.
  rewrite Nat2Z.id.
  replace (Z.to_nat (Z.of_nat (length text) + 1)) with (S (length text)) by lia.
  rewrite firstn_all, seq_S, map_app. simpl.
  rewrite drop_app_length'; [|by rewrite length_map, length_seq].
  rewrite take_app_length, drop_app_length.
  rewrite <- (EncryptBytes_length text) at 1.
  by rewrite (insert_app_r_alt _ _ _ _ (le_n _)), Nat.sub_diag.
Qed.

(** The four ways a run of [Import] can go. *)
Lemma Import_unreadable w :
  File_ReadAllText (InputPath (context w)) = None ->
  Import w = Returned (InvalidPath, set_context (prepared w) w).
Proof.
  intros Hread. unfold Import, bind, modify, get, ret. simpl.
  fold (prepared w). by rewrite IMPORT_SETUP_InputPath, Hread.
Qed.

Lemma Import_no_chunk w text :
  File_ReadAllText (InputPath (context w)) = Some text ->
  (AllocateChunk 15 (prepared w)).1 = true ->
  Import w =
  Returned (CannotAllocateChunk,
            set_context (AllocateChunk 15 (prepared w)).2 w).
Proof.
  intros Hread Halloc. unfold prepared in *.
  unfold Import, call_AllocateChunk, bind, modify, get, ret, set_SkipMetadata,
    set_context in *.
  rewrite <- (IMPORT_SETUP_InputPath "Shader" 20) in Hread.
  simpl in *. rewrite Hread. simpl. by rewrite Halloc.
Qed.

Lemma Import_short w text :
  File_ReadAllText (InputPath (context w)) = Some text ->
  (AllocateChunk 15 (prepared w)).1 = false ->
  Length text < 10 ->
  Import w =
  Returned (Error,
            {| context := (AllocateChunk 15 (prepared w)).2;
               ShaderCache := ShaderCache w;
               Log := Log w ++ [(LogType.Warning, "Empty shader source file.")] |}).
Proof.
  intros Hread Halloc Hshort. unfold prepared in *.
  unfold Import, call_AllocateChunk, LOG, bind, modify, get, ret,
    set_SkipMetadata, set_context in *.
  rewrite <- (IMPORT_SETUP_InputPath "Shader" 20) in Hread.
  simpl in *. rewrite Hread. simpl. rewrite Halloc. simpl.
  by rewrite (proj2 (Z.ltb_lt _ _) Hshort).
Qed.

Lemma Import_stored w text :
  File_ReadAllText (InputPath (context w)) = Some text ->
  (AllocateChunk 15 (prepared w)).1 = false ->
  10 <= Length text ->
  let allocated := (AllocateChunk 15 (prepared w)).2 in
  Import w =
  Returned (Ok,
            {| context :=
                 set_CustomData (replicate sizeof_Header20 Byte.x00)
                   (set_Chunks
                      (<[15%nat := Some (FlaxChunk.mk (EncryptBytes text ++ [Byte.x00]))]>
                         (Chunks (Header (Data allocated))))
                      allocated);
               ShaderCache :=
                 if COMPILE_WITH_SHADER_CACHE_MANAGER
                 then delete (ID (Header (Data (context w)))) (ShaderCache w)
                 else ShaderCache w;
               Log := Log w |}).
Proof.
  intros Hread Halloc Hlong allocated.
  destruct (AllocateChunk_allocated 15 (prepared w) Halloc) as [chunk Hchunk].
  fold allocated in Hchunk.
  pose proof (AllocateChunk_ID 15 (prepared w)) as Hid.
  rewrite prepared_ID in Hid. fold allocated in Hid.
  subst allocated. unfold prepared in *.
  unfold Import, call_AllocateChunk, write_chunk, RemoveCache,
    bind, modify, get, ret, set_SkipMetadata, set_context in *.
  rewrite <- (IMPORT_SETUP_InputPath "Shader" 20) in Hread.
  simpl in *. rewrite Hread. simpl. rewrite Halloc. simpl.
  rewrite (proj2 (Z.ltb_ge _ _) Hlong). simpl.
  rewrite Hchunk, stored_source. simpl.
  destruct COMPILE_WITH_SHADER_CACHE_MANAGER; simpl; by rewrite ?Hid.
Qed.
End ImportFacts.

Section ImportClaims.
Context `{ShaderImportEnvLaws}.

(** C6: a successful import is read, encrypt, store.  The text was read
    from the input file; the source-code chunk (chunk 15) then holds
    [n + 1] bytes, [n] the length of the text: the first [n] are the
    encryption of the text and the last is 0, written after the encryption;
    the custom data is the zeroed header. *)
Theorem Import_stores_encrypted_source (w w' : World) :
  Import w = Returned (Ok, w') ->
  exists (text : StringAnsi) (chunk : FlaxChunk.t),
    File_ReadAllText (InputPath (context w)) = Some text /\
    chunk_pointer (context w') 15 = Some (Some chunk) /\
    length (FlaxChunk.Data chunk) = S (length text) /\
    take (length text) (FlaxChunk.Data chunk) = EncryptBytes text /\
    FlaxChunk.Data chunk !! length text = Some Byte.x00 /\
    CustomData (Data (context w')) = replicate sizeof_Header20 Byte.x00.
Proof.
  intros Hrun.
  destruct (File_ReadAllText (InputPath (context w))) as [text|] eqn:Hread.
  2:{ rewrite (Import_unreadable w Hread) in Hrun. congruence. }
  destruct (AllocateChunk 15 (prepared w)).1 eqn:Halloc.
  { rewrite (Import_no_chunk w text Hread Halloc) in Hrun. congruence. }
  destruct (Z_lt_le_dec (Length text) 10) as [Hshort|Hlong].
  { rewrite (Import_short w text Hread Halloc Hshort) in Hrun. congruence. }
  rewrite (Import_stored w text Hread Halloc Hlong) in Hrun.
  injection Hrun as <-.
  destruct (AllocateChunk_allocated 15 (prepared w) Halloc) as [old Hold].
  exists text, (FlaxChunk.mk (EncryptBytes text ++ [Byte.x00])).
  split; [done|]. split.
  { unfold chunk_pointer in *. simpl.
    apply (at_index_insert _ 15 _ _ Hold). }
  simpl. split; [|split; [|split]].
  - rewrite length_app, EncryptBytes_length. simpl. lia.
  - rewrite <- (EncryptBytes_length text) at 1. apply take_app_length.
  - rewrite <- (EncryptBytes_length text) at 1. apply list_lookup_middle. done.
  - done.
Qed.

(** C7: [Import] always comes back with a result code, one of [Ok],
    [Error], [InvalidPath] and [CannotAllocateChunk].  When the input file
    cannot be read the code is [InvalidPath] and nothing has happened
    beyond the base setup; when the chunk allocation fails the code is
    [CannotAllocateChunk] and nothing has happened beyond the setup and the
    allocation attempt: no chunk data, no custom data, no cache entry and
    no log line is written. *)
Theorem Import_failures_are_result_codes :
  (forall w, File_ReadAllText (InputPath (context w)) = None ->
     Import w = Returned (InvalidPath, set_context (prepared w) w)) /\
  (forall w text,
     File_ReadAllText (InputPath (context w)) = Some text ->
     (AllocateChunk 15 (prepared w)).1 = true ->
     Import w = Returned (CannotAllocateChunk,
                          set_context (AllocateChunk 15 (prepared w)).2 w)) /\
  (forall w, exists r w',
     Import w = Returned (r, w') /\
     r ∈ [Ok; Error; InvalidPath; CannotAllocateChunk]).
Proof.
  split; [exact Import_unreadable|]. split; [exact Import_no_chunk|].
  intros w.
  destruct (File_ReadAllText (InputPath (context w))) as [text|] eqn:Hread.
  2:{ eexists _, _. split; [by apply Import_unreadable|]. set_solver. }
  destruct (AllocateChunk 15 (prepared w)).1 eqn:Halloc.
  { eexists _, _. split; [by eapply Import_no_chunk|]. set_solver. }
  destruct (Z_lt_le_dec (Length text) 10) as [Hshort|Hlong].
  { eexists _, _. split; [by eapply Import_short|]. set_solver. }
  eexists _, _. split; [by eapply Import_stored|]. set_solver.
Qed.

(** C8 (as amended): in a build with COMPILE_WITH_SHADER_CACHE_MANAGER a
    successful import removes the cache entry of the imported asset's
    identity and leaves the entry of every other identity as it was; in a
    build without it a successful import leaves the cache as it was. *)
Theorem Import_invalidates_own_cache_entry (w w' : World) :
  Import w = Returned (Ok, w') ->
  (COMPILE_WITH_SHADER_CACHE_MANAGER = true ->
     ID (Header (Data (context w'))) = ID (Header (Data (context w))) /\
     ShaderCache w' !! ID (Header (Data (context w))) = None /\
     forall id, id ≠ ID (Header (Data (context w))) ->
       ShaderCache w' !! id = ShaderCache w !! id) /\
  (COMPILE_WITH_SHADER_CACHE_MANAGER = false ->
     ShaderCache w' = ShaderCache w).
Proof.
  intros Hrun.
  destruct (File_ReadAllText (InputPath (context w))) as [text|] eqn:Hread.
  2:{ rewrite (Import_unreadable w Hread) in Hrun. congruence. }
  destruct (AllocateChunk 15 (prepared w)).1 eqn:Halloc.
  { rewrite (Import_no_chunk w text Hread Halloc) in Hrun. congruence. }
  destruct (Z_lt_le_dec (Length text) 10) as [Hshort|Hlong].
  { rewrite (Import_short w text Hread Halloc Hshort) in Hrun. congruence. }
  rewrite (Import_stored w text Hread Halloc Hlong) in Hrun.
  injection Hrun as <-. simpl.
  split; intros ->; [|done].
  split; [|split].
  - by rewrite AllocateChunk_ID, prepared_ID.
  - apply lookup_delete_eq.
  - intros id Hid. by apply lookup_delete_ne.
Qed.

(** C9: once the text is read and the chunk allocation has succeeded, a
    text shorter than 10 characters, empty or not, is rejected: the result
    is [Error], the warning "Empty shader source file." is logged, and the
    chunk allocated before the check stays allocated, with nothing else
    written.  A text of 10 characters or more passes the check and the
    import succeeds. *)
Theorem Import_rejects_short_source (w : World) (text : StringAnsi) :
  File_ReadAllText (InputPath (context w)) = Some text ->
  (AllocateChunk 15 (prepared w)).1 = false ->
  (Length text < 10 ->
     Import w =
       Returned (Error,
                 {| context := (AllocateChunk 15 (prepared w)).2;
                    ShaderCache := ShaderCache w;
                    Log := Log w ++
                      [(LogType.Warning, "Empty shader source file.")] |}) /\
     exists chunk,
       chunk_pointer (AllocateChunk 15 (prepared w)).2 15 = Some (Some chunk)) /\
  (10 <= Length text -> exists w', Import w = Returned (Ok, w')).
Proof.
  intros Hread Halloc. split.
  - intros Hshort. split; [by apply (Import_short w text)|].
    by apply AllocateChunk_allocated.
  - intros Hlong. eexists. by apply Import_stored.
Qed.
End ImportClaims.

(** Importing the sample shader stores its encrypted text in chunk 15. *)
Lemma Import_stores_encrypted_source_witness :
  exists w',
    @Import (sample_env true) (sample_world "Shaders/Main.shader" free_chunks) =
      Returned (Ok, w') /\
    exists (text : StringAnsi) (chunk : FlaxChunk.t),
      sample_files "Shaders/Main.shader" = Some text /\
      chunk_pointer (context w') 15 = Some (Some chunk) /\
      length (FlaxChunk.Data chunk) = S (length text) /\
      take (length text) (FlaxChunk.Data chunk) =
        map (xor_byte Byte.x5a) text /\
      FlaxChunk.Data chunk !! length text = Some Byte.x00 /\
      CustomData (Data (context w')) = replicate 4 Byte.x00.
Proof.
  eexists. split.
  - vm_compute. reflexivity.
  - exact (@Import_stores_encrypted_source
             (sample_env true) (sample_env_laws true)
             (sample_world "Shaders/Main.shader" free_chunks) _
             ltac:(vm_compute; reflexivity)).
Defined.

(** A missing file gives [InvalidPath]; a chunk table whose slot 15 is
    taken gives [CannotAllocateChunk]; cache and log stay as they were. *)
Lemma Import_failures_are_result_codes_witness :
  (exists w',
     @Import (sample_env true)
       (sample_world "Shaders/Missing.shader" free_chunks) =
       Returned (InvalidPath, w') /\
     ShaderCache w' = ShaderCache (sample_world "" free_chunks) /\
     Log w' = []) /\
  (exists w',
     @Import (sample_env true)
       (sample_world "Shaders/Main.shader" taken_chunks) =
       Returned (CannotAllocateChunk, w') /\
     ShaderCache w' = ShaderCache (sample_world "" free_chunks) /\
     Log w' = []).
Proof.
  destruct (@Import_failures_are_result_codes
              (sample_env true) (sample_env_laws true))
    as (Hpath & Hchunk & _).
  split.
  - eexists. split; [|split].
    + apply Hpath. reflexivity.
    + reflexivity.
    + reflexivity.
  - eexists. split; [|split].
    + apply (Hchunk _ sample_source); reflexivity.
    + reflexivity.
    + reflexivity.
Defined.

(** Built without the cache manager, a successful import of asset 7 leaves
    the cache entry of asset 7 in place. *)
Lemma Import_without_cache_manager_keeps_entry :
  COMPILE_WITH_SHADER_CACHE_MANAGER (ShaderImportEnv := sample_env false) = false /\
  exists w',
    @Import (sample_env false)
      (sample_world "Shaders/Main.shader" free_chunks) = Returned (Ok, w') /\
    ID (Header (Data (context w'))) = 7%N /\
    ShaderCache w' !! 7%N = Some [Byte.x01].
Proof.
  split; [reflexivity|]. eexists. split; [|split].
  - vm_compute. reflexivity.
  - reflexivity.
  - vm_compute. reflexivity.
Qed.

Lemma Import_invalidates_own_cache_entry_witness :
  exists w',
    @Import (sample_env true)
      (sample_world "Shaders/Main.shader" free_chunks) = Returned (Ok, w') /\
    ShaderCache w' !! 7%N = None /\
    ShaderCache w' !! 8%N = Some [Byte.x02].
Proof.
  eexists. split.
  - vm_compute. reflexivity.
  - destruct (@Import_invalidates_own_cache_entry
                (sample_env true) (sample_env_laws true)
                (sample_world "Shaders/Main.shader" free_chunks) _
                ltac:(vm_compute; reflexivity))
      as [Hon _].
    destruct (Hon eq_refl) as (_ & Hown & Hothers).
    split; [exact Hown|].
    transitivity
      (ShaderCache (sample_world "Shaders/Main.shader" free_chunks) !! 8%N).
    + exact (Hothers 8%N ltac:(discriminate)).
    + vm_compute. reflexivity.
Defined.

(** The eight-character stub is rejected and leaves its chunk allocated;
    the full shader passes. *)
Lemma Import_rejects_short_source_witness :
  (exists w',
     @Import (sample_env true)
       (sample_world "Shaders/Stub.shader" free_chunks) = Returned (Error, w') /\
     Log w' = [(LogType.Warning, "Empty shader source file.")] /\
     chunk_pointer (context w') 15 = Some (Some (FlaxChunk.mk []))) /\
  (exists w',
     @Import (sample_env true)
       (sample_world "Shaders/Main.shader" free_chunks) = Returned (Ok, w')).
Proof.
  split.
  - destruct (@Import_rejects_short_source
                (sample_env true) (sample_env_laws true)
                (sample_world "Shaders/Stub.shader" free_chunks) short_source
                eq_refl eq_refl) as [Hshort _].
    destruct (Hshort ltac:(vm_compute; reflexivity)) as [Hrun _].
    eexists. split; [exact Hrun|]. split; reflexivity.
  - destruct (@Import_rejects_short_source
                (sample_env true) (sample_env_laws true)
                (sample_world "Shaders/Main.shader" free_chunks) sample_source
                eq_refl eq_refl) as [_ Hlong].
    apply Hlong. vm_compute. discriminate.
Defined.

(** A record held by two LODs breaks exclusive ownership: the second
    [ClearDelete] deletes an object that is no longer live. *)
Example shared_mesh_is_deleted_twice :
  ImportedModelData_destructor 3
    {| Types := ImportDataTypes.Geometry;
       LODs := [ {| Meshes := [16%N] |}; {| Meshes := [16%N] |} ] |}
    sample_heap = Fault InvalidDelete.
Proof. vm_compute. reflexivity. Qed.

(** * Further properties *)

(** ** The resolver: faults, recursion depth, locality *)

(** Among [n + 1] indices below [n] two are equal. *)
Lemma repeated_or_NoDup (l : list Z) :
  NoDup l \/
  exists (a b : nat) (x : Z), (a < b)%nat /\ l !! a = Some x /\ l !! b = Some x.
Proof.
  induction l as [|x l IH]; [left; constructor|].
  destruct (decide (x ∈ l)) as [Hin|Hnotin].
  - right. apply list_elem_of_lookup in Hin as [b Hb].
    exists 0%nat, (S b), x. split; [lia|]. by split.
  - destruct IH as [Hnd|(a & b & y & Hab & Ha & Hb)].
    + left. by constructor.
    + right. exists (S a), (S b), y. split; [lia|]. by split.
Qed.

Lemma pigeonhole (f : nat -> Z) (n : nat) :
  (forall k, (k <= n)%nat -> 0 <= f k < Z.of_nat n) ->
  exists a b, (a < b <= n)%nat /\ f a = f b.
Proof.
  intros Hrange.
  destruct (repeated_or_NoDup (f <$> seq 0 (S n)))
    as [Hnd|(a & b & x & Hab & Ha & Hb)].
  - exfalso.
    assert (Hsub : (f <$> seq 0 (S n)) ⊆+ (Z.of_nat <$> seq 0 n)).
    { apply NoDup_submseteq; [done|]. intros x Hx.
      apply list_elem_of_fmap in Hx as (k & -> & Hk).
      apply elem_of_seq in Hk. specialize (Hrange k ltac:(lia)).
      apply list_elem_of_fmap. exists (Z.to_nat (f k)).
      split; [lia|]. apply elem_of_seq. lia. }
    apply submseteq_length in Hsub.
    rewrite !length_fmap, !length_seq in Hsub. lia.
  - apply list_lookup_fmap_Some in Ha as (a' & -> & Ha).
    apply list_lookup_fmap_Some in Hb as (b' & Hfb & Hb).
    apply lookup_seq in Ha as [-> ?]. apply lookup_seq in Hb as [-> ?].
    exists a, b. simpl in *. split; [lia|done].
Qed.

Section ResolverDepth.
Context {Transform Node : Type}.
Context `{!TransformOps Transform, !NodeLike Transform Node}.
Implicit Types (nodes : list Node) (rootIndex index : int32).

Lemma at_index_range nodes i node :
  at_index nodes i = Some node -> 0 <= i < Z.of_nat (length nodes).
Proof.
  unfold at_index. destruct (i <? 0) eqn:Hneg; [done|].
  intros Hl%lookup_lt_Some. apply Z.ltb_ge in Hneg. lia.
Qed.

(** A node the climb leaves behind is a node of the array. *)
Lemma climb_step_range nodes rootIndex i :
  is_Some (climb 1 nodes rootIndex i) -> 0 <= i < Z.of_nat (length nodes).
Proof.
  simpl. destruct (stops_at rootIndex i); [by intros [? ?]|].
  destruct (at_index nodes i) as [node|] eqn:Hat; [|by intros [? ?]].
  intros _. by eapply at_index_range.
Qed.

(** A climb of more links than there are nodes has met a cycle. *)
Lemma long_climb_cycles nodes rootIndex index :
  is_Some (climb (S (length nodes)) nodes rootIndex index) ->
  CycleReachable nodes rootIndex index.
Proof.
  intros Hlong.
  assert (Hat : forall k, (k <= length nodes)%nat ->
            exists i, climb k nodes rootIndex index = Some i /\
                      0 <= i < Z.of_nat (length nodes)).
  { intros k Hk.
    pose proof (climb_shorter (k + 1) (S (length nodes)) nodes rootIndex
                  index ltac:(lia) Hlong) as Hk1.
    rewrite climb_add in Hk1.
    destruct (climb k nodes rootIndex index) as [i|]; [|by destruct Hk1].
    exists i. split; [done|]. by eapply climb_step_range. }
  destruct (pigeonhole
              (fun k => default 0 (climb k nodes rootIndex index))
              (length nodes)) as (a & b & Hab & Heq).
  { intros k Hk. destruct (Hat k Hk) as (i & -> & Hi). done. }
  destruct (Hat a ltac:(lia)) as (c & Ha & _).
  destruct (Hat b ltac:(lia)) as (c' & Hb & _).
  rewrite Ha, Hb in Heq. simpl in Heq. subst c'.
  exists a, (b - a)%nat, c. split; [done|]. split; [lia|].
  replace b with (a + (b - a))%nat in Hb by lia.
  by rewrite climb_add, Ha in Hb.
Qed.

(** A call that has not come back is still climbing. *)
Lemma not_returned_climbing fuel nodes rootIndex index :
  CombineTransformsFromNodeIndices fuel nodes rootIndex index = OutOfFuel ->
  is_Some (climb fuel nodes rootIndex index).
Proof.
  revert index. induction fuel as [|fuel IH]; intros index; [by eexists|].
  simpl. fold (stops_at rootIndex index).
  destruct (stops_at rootIndex index) eqn:Hs; [done|].
  destruct (at_index nodes index) as [node|]; [|done].
  rewrite (stops_at_false _ _ Hs). simpl.
  destruct (CombineTransformsFromNodeIndices fuel nodes rootIndex
              (ParentIndex node)) eqn:Hparent; try done.
  intros _. by apply IH.
Qed.

(** Once a call has come back, a larger budget changes nothing. *)
Lemma finished_stays fuel fuel' nodes rootIndex index :
  (fuel <= fuel')%nat ->
  terminated (CombineTransformsFromNodeIndices fuel nodes rootIndex index)
    = true ->
  CombineTransformsFromNodeIndices fuel' nodes rootIndex index =
  CombineTransformsFromNodeIndices fuel nodes rootIndex index.
Proof.
  revert fuel' index. induction fuel as [|fuel IH]; intros fuel' index Hle;
    [done|].
  destruct fuel' as [|fuel']; [lia|].
  simpl. destruct ((index =? -1) || (index =? rootIndex)); [done|].
  destruct (at_index nodes index) as [node|]; [|done].
  destruct (negb (index =? rootIndex)); [|done].
  destruct (CombineTransformsFromNodeIndices fuel nodes rootIndex
              (ParentIndex node)) eqn:Hparent; try done.
  - intros _. rewrite (IH fuel' (ParentIndex node)), Hparent; [done|lia|].
    by rewrite Hparent.
  - intros _. rewrite (IH fuel' (ParentIndex node)), Hparent; [done|lia|].
    by rewrite Hparent.
Qed.

(** X1: a parent index that is neither [-1], nor [rootIndex], nor an index
    of the array is used as a subscript: when the chain of [index] reaches
    such an index after [k] links, every call with a budget above [k] ends
    in the out-of-range fault; it neither returns a transform nor goes on
    recursing. *)
Theorem broken_parent_index_faults
    nodes rootIndex index (k : nat) (j : int32) :
  climb k nodes rootIndex index = Some j ->
  stops_at rootIndex j = false ->
  at_index nodes j = None ->
  forall fuel, (k < fuel)%nat ->
    CombineTransformsFromNodeIndices fuel nodes rootIndex index =
    Fault IndexOutOfRange.
Proof.
  revert index. induction k as [|k IH]; intros index Hclimb Hs Hat fuel Hfuel;
    (destruct fuel as [|fuel]; [lia|]).
  - injection Hclimb as ->. simpl. fold (stops_at rootIndex j).
    by rewrite Hs, Hat.
  - simpl in Hclimb |- *. fold (stops_at rootIndex index).
    destruct (stops_at rootIndex index) eqn:Hsi; [done|].
    destruct (at_index nodes index) as [node|]; [|done].
    rewrite (stops_at_false _ _ Hsi). simpl.
    by rewrite (IH (ParentIndex node) Hclimb Hs Hat fuel ltac:(lia)).
Qed.

(** X2: [nodes.Count() + 1] nested calls decide the call.  Whatever the
    outcome at that depth (a transform, the out-of-range fault, or still
    recursing), every larger budget gives the same: a call that returns
    does so within [Count + 1] levels, and one that has not returned by
    then never will. *)
Theorem recursion_depth_bounded nodes rootIndex index (fuel : nat) :
  (length nodes < fuel)%nat ->
  CombineTransformsFromNodeIndices fuel nodes rootIndex index =
  CombineTransformsFromNodeIndices (S (length nodes)) nodes rootIndex index.
Proof.
  intros Hfuel.
  destruct (terminated (CombineTransformsFromNodeIndices
                          (S (length nodes)) nodes rootIndex index)) eqn:Hdone.
  - apply finished_stays; [lia|done].
  - destruct (CombineTransformsFromNodeIndices
                (S (length nodes)) nodes rootIndex index) eqn:Hrun; try done.
    apply climbing_not_returned, cycle_climbs_forever, long_climb_cycles.
    by apply not_returned_climbing.
Qed.

(** X3: the call fails to return at every budget exactly when a cycle is
    reachable from [index]: nothing but a parent-index cycle makes the
    recursion unbounded. *)
Theorem unbounded_exactly_on_cycles nodes rootIndex index :
  (forall fuel,
     CombineTransformsFromNodeIndices fuel nodes rootIndex index = OutOfFuel)
  <-> CycleReachable nodes rootIndex index.
Proof.
  split.
  - intros Hrun. apply long_climb_cycles, not_returned_climbing, Hrun.
  - intros Hcycle fuel.
    by apply climbing_not_returned, cycle_climbs_forever.
Qed.
End ResolverDepth.

Lemma broken_parent_index_faults_witness :
  climb 2 broken_nodes 0 2 = Some 5 /\
  CombineTransformsFromNodeIndices 3 broken_nodes 0 2 = Fault IndexOutOfRange /\
  CombineTransformsFromNodeIndices 7 broken_nodes 0 2 = Fault IndexOutOfRange.
Proof.
  split; [reflexivity|]. split.
  - reflexivity.
  - exact (broken_parent_index_faults broken_nodes 0 2 2 5
             eq_refl eq_refl eq_refl 7%nat ltac:(lia)).
Defined.

Lemma recursion_depth_bounded_witness :
  CombineTransformsFromNodeIndices 9 chain_nodes 0 2 =
  CombineTransformsFromNodeIndices 4 chain_nodes 0 2 /\
  CombineTransformsFromNodeIndices 9 cyclic_nodes 0 1 = OutOfFuel.
Proof.
  split.
  - exact (recursion_depth_bounded chain_nodes 0 2 9 ltac:(simpl; lia)).
  - exact (recursion_depth_bounded cyclic_nodes 0 1 9 ltac:(simpl; lia)).
Defined.

Section ResolverLocality.
Context {Transform Node : Type}.
Context `{!TransformOps Transform, !NodeLike Transform Node}.
Implicit Types (nodes : list Node) (rootIndex index : int32).
Implicit Types (path : list (int32 * Node)).

(** A chain is a chain in every array that holds its nodes. *)
Lemma ParentChain_transfer nodes nodes' rootIndex index path :
  ParentChain nodes rootIndex index path ->
  Forall (fun entry => at_index nodes' entry.1 = Some entry.2) path ->
  ParentChain nodes' rootIndex index path.
Proof.
  induction 1 as [index Hs|index node path Hs Hat _ IH]; intros Hall.
  - by apply chain_stop.
  - apply Forall_app in Hall as [Hpath Hlast].
    apply Forall_inv in Hlast.
    apply chain_link; [done|exact Hlast|]. by apply IH.
Qed.

Lemma at_index_app {A} (items more : list A) (i : int32) (x : A) :
  at_index items i = Some x -> at_index (items ++ more) i = Some x.
Proof.
  unfold at_index. destruct (i <? 0); [done|]. apply lookup_app_l_Some.
Qed.

(** A chain cut at one of its nodes: below the cut it is the chain of that
    node, above it the chain of [index] with that node as root. *)
Lemma ParentChain_split nodes rootIndex index path :
  ParentChain nodes rootIndex index path ->
  forall upper a node_a lower,
    path = upper ++ (a, node_a) :: lower ->
    ParentChain nodes rootIndex a (upper ++ [(a, node_a)]) /\
    ParentChain nodes a index lower.
Proof.
  induction 1 as [index Hs|index node path Hs Hat Hp IH];
    intros upper a node_a lower Heq.
  - by destruct upper.
  - pose proof (ParentChain_NoDup _ _ _ _ (chain_link _ _ _ _ _ Hs Hat Hp))
      as Hnd.
    destruct lower as [|last lower _] using rev_ind.
    + apply app_inj_tail in Heq as [-> [= -> ->]]. split.
      * by apply chain_link.
      * apply chain_stop. unfold stops_at. by rewrite Z.eqb_refl, orb_true_r.
    + rewrite app_comm_cons, app_assoc in Heq.
      apply app_inj_tail in Heq as [-> <-].
      destruct (IH upper a node_a lower eq_refl) as [Ha Hlower].
      split; [done|]. apply chain_link; [|done|done].
      unfold stops_at in *. apply orb_false_elim in Hs as [Hminus _].
      rewrite Hminus. simpl. apply Z.eqb_neq. intros ->.
      rewrite !fmap_app, fmap_cons in Hnd. simpl in Hnd.
      apply NoDup_app in Hnd as (_ & Hdisj & _).
      apply (Hdisj a); [|by left].
      apply elem_of_app. right. by left.
Qed.

(** X4: the call reads nothing but the nodes of the chain.  In any other
    array that holds the same nodes at the indices of the chain the call
    returns the same transform; in particular nodes appended to the array
    change no transform already resolved. *)
Theorem resolves_from_chain_nodes_only nodes rootIndex index path :
  ParentChain nodes rootIndex index path ->
  (forall nodes' fuel,
     Forall (fun entry => at_index nodes' entry.1 = Some entry.2) path ->
     (length path < fuel)%nat ->
     CombineTransformsFromNodeIndices fuel nodes' rootIndex index =
     CombineTransformsFromNodeIndices fuel nodes rootIndex index) /\
  (forall more fuel,
     (length path < fuel)%nat ->
     CombineTransformsFromNodeIndices fuel (nodes ++ more) rootIndex index =
     CombineTransformsFromNodeIndices fuel nodes rootIndex index).
Proof.
  intros Hchain.
  assert (Hgen : forall nodes' fuel,
    Forall (fun entry => at_index nodes' entry.1 = Some entry.2) path ->
    (length path < fuel)%nat ->
    CombineTransformsFromNodeIndices fuel nodes' rootIndex index =
    CombineTransformsFromNodeIndices fuel nodes rootIndex index).
  { intros nodes' fuel Hall Hfuel.
    rewrite (ParentChain_returns _ _ _ _ Hchain fuel Hfuel).
    apply ParentChain_returns; [|done]. by eapply ParentChain_transfer. }
  split; [exact Hgen|]. intros more fuel Hfuel. apply Hgen; [|done].
  eapply Forall_impl; [by eapply ParentChain_entries|].
  intros entry. apply at_index_app.
Qed.

(** X5: resolution composes along the chain.  For a node [a] on the chain
    of [index], the transform of [index] under [rootIndex] is the transform
    of [a] under [rootIndex] continued with the local transforms from below
    [a] down to [index], and these are the ones the call composes when [a]
    itself is given as the root. *)
Theorem resolves_through_ancestor
    nodes rootIndex index upper (a : int32) (node_a : Node) lower :
  ParentChain nodes rootIndex index (upper ++ (a, node_a) :: lower) ->
  forall fuel, (length (upper ++ (a, node_a) :: lower) < fuel)%nat ->
    exists to_a,
      CombineTransformsFromNodeIndices fuel nodes rootIndex a =
        Returned to_a /\
      CombineTransformsFromNodeIndices fuel nodes rootIndex index =
        Returned (extend_chain to_a lower) /\
      CombineTransformsFromNodeIndices fuel nodes a index =
        Returned (extend_chain Identity lower).
Proof.
  intros Hchain fuel Hfuel.
  destruct (ParentChain_split _ _ _ _ Hchain upper a node_a lower eq_refl)
    as [Ha Hlower].
  rewrite length_app in Hfuel. simpl in Hfuel.
  exists (compose_chain (upper ++ [(a, node_a)])). split; [|split].
  - apply (ParentChain_returns _ _ _ _ Ha). rewrite length_app. simpl. lia.
  - rewrite (ParentChain_returns _ _ _ _ Hchain)
      by (rewrite length_app; simpl; lia).
    f_equal. unfold compose_chain, extend_chain.
    by rewrite (cons_middle (a, node_a) upper lower), app_assoc, fold_left_app.
  - apply (ParentChain_returns _ _ _ _ Hlower). lia.
Qed.
End ResolverLocality.

Lemma resolves_from_chain_nodes_only_witness :
  CombineTransformsFromNodeIndices 3 (chain_nodes ++ cyclic_nodes) 0 2 =
  CombineTransformsFromNodeIndices 3 chain_nodes 0 2.
Proof.
  assert (Hchain :
    ParentChain chain_nodes 0 2 [(1, term_node 0 1); (2, term_node 1 2)]).
  { apply (chain_link chain_nodes 0 2 (term_node 1 2) [(1, term_node 0 1)]);
      [reflexivity | reflexivity |].
    apply (chain_link chain_nodes 0 1 (term_node 0 1) []);
      [reflexivity | reflexivity |].
    apply chain_stop. reflexivity. }
  exact (proj2 (resolves_from_chain_nodes_only chain_nodes 0 2 _ Hchain)
               cyclic_nodes 3%nat ltac:(simpl; lia)).
Defined.

Lemma resolves_through_ancestor_witness :
  exists to_a,
    CombineTransformsFromNodeIndices 4 chain_nodes (-1) 1 = Returned to_a /\
    CombineTransformsFromNodeIndices 4 chain_nodes (-1) 2 =
      Returned (LocalToWorldTerm to_a (LocalTerm 2)) /\
    CombineTransformsFromNodeIndices 4 chain_nodes 1 2 =
      Returned (LocalToWorldTerm IdentityTerm (LocalTerm 2)).
Proof.
  assert (Hchain :
    ParentChain chain_nodes (-1) 2
      ([(0, term_node (-1) 0)] ++ (1, term_node 0 1) :: [(2, term_node 1 2)])).
  { apply (chain_link chain_nodes (-1) 2 (term_node 1 2)
             [(0, term_node (-1) 0); (1, term_node 0 1)]);
      [reflexivity | reflexivity |].
    apply (chain_link chain_nodes (-1) 1 (term_node 0 1) [(0, term_node (-1) 0)]);
      [reflexivity | reflexivity |].
    apply (chain_link chain_nodes (-1) 0 (term_node (-1) 0) []);
      [reflexivity | reflexivity |].
    apply chain_stop. reflexivity. }
  exact (resolves_through_ancestor chain_nodes (-1) 2
           [(0, term_node (-1) 0)] 1 (term_node 0 1) [(2, term_node 1 2)]
           Hchain 4%nat ltac:(simpl; lia)).
Defined.

(** ** Destruction: when it completes and what it leaves alone *)

(** Deleting a list of records comes back only if the records are distinct
    and live. *)
Lemma delete_items_returned items h u h' :
  delete_items items h = Returned (u, h') ->
  NoDup (non_null items) /\ forall p, p ∈ non_null items -> p ∈ live h.
Proof.
  revert h. induction items as [|p rest IH]; intros h.
  - intros _. split; [constructor|]. intros p Hp. by apply elem_of_nil in Hp.
  - simpl. unfold bind, non_null in *.
    destruct (decide (p = nullptr)) as [->|Hp].
    + rewrite filter_cons_False by (intros ?; done). unfold ret. apply IH.
    + rewrite filter_cons_True by done. unfold Delete.
      destruct (decide (p ∈ live h)) as [Hlive|]; [|done].
      intros Hrest. destruct (IH _ Hrest) as [Hnd Hall]. simpl in Hall.
      split.
      * constructor; [|done]. intros Hin.
        apply Hall, elem_of_difference in Hin as [_ Hin].
        apply Hin. by apply elem_of_singleton.
      * intros q [->|Hq]%elem_of_cons; [done|].
        by apply Hall, elem_of_difference in Hq as [Hq _].
Qed.

(** The loop comes back only within its budget and only on LODs whose
    records are distinct and live. *)
Lemma destructor_loop_returned rest :
  forall done fuel h r,
    destructor_loop fuel (Z.of_nat (length done)) (done ++ rest) h = Returned r ->
    (length rest < fuel)%nat /\
    NoDup (non_null (concat (map Meshes rest))) /\
    (forall p, p ∈ non_null (concat (map Meshes rest)) -> p ∈ live h).
Proof.
  induction rest as [|lod rest IH]; intros done fuel h r.
  - destruct fuel as [|fuel]; [done|]. intros _. simpl.
    split; [lia|]. split; [constructor|].
    intros p Hp. by apply elem_of_nil in Hp.
  - destruct fuel as [|fuel]; [done|].
    cbn [destructor_loop]. unfold Count.
    rewrite (proj2 (Z.ltb_lt _ _)) by (rewrite length_app; simpl; lia).
    unfold at_index. rewrite (proj2 (Z.ltb_ge _ _)) by lia.
    rewrite Nat2Z.id, list_lookup_middle by done.
    unfold bind at 1. unfold ClearDelete. unfold bind at 1.
    destruct (delete_items (Meshes lod) h) as [[u h1]| |] eqn:Hdel; try done.
    destruct (delete_items_returned _ _ _ _ Hdel) as [Hnd1 Hlive1].
    rewrite (delete_items_releases _ _ Hnd1 Hlive1) in Hdel.
    injection Hdel as _ <-.
    unfold ret at 1.
    rewrite insert_app_r_alt, Nat.sub_diag by done. cbn [insert list_insert].
    replace (Z.of_nat (length done) + 1)
      with (Z.of_nat (length (done ++ [cleared lod])))
      by (rewrite length_app; simpl; lia).
    change {| Meshes := [] |} with (cleared lod).
    rewrite (cons_middle (cleared lod) done rest), app_assoc.
    intros Hrest. destruct (IH _ _ _ _ Hrest) as (Hfuel & Hnd2 & Hlive2).
    simpl in Hlive2. simpl. rewrite non_null_app.
    split; [lia|]. split.
    + apply NoDup_app. split; [done|]. split; [|done].
      intros p Hp1 Hp2.
      apply Hlive2, elem_of_difference in Hp2 as [_ Hp2].
      apply Hp2. by apply elem_of_list_to_set.
    + intros p [Hp|Hp]%elem_of_app; [by apply Hlive1|].
      by apply Hlive2, elem_of_difference in Hp as [Hp _].
Qed.

(** X6: the destructor completes only on an instance whose mesh records
    are exclusively owned: if it comes back at all, then no record was held
    in two places and every record held was a live object.  A record held
    twice, or already released, stops it in the invalid-delete fault. *)
Theorem destructor_completes_only_when_owned
    (this this' : ImportedModelData) (h h' : Heap) (fuel : nat) :
  ImportedModelData_destructor fuel this h = Returned (this', h') ->
  exclusively_owned this h.
Proof.
  unfold ImportedModelData_destructor, bind.
  destruct (destructor_loop fuel 0 (LODs this) h) as [[lods h1]| |] eqn:Hloop;
    try done.
  intros _.
  destruct (destructor_loop_returned (LODs this) [] fuel h _ Hloop)
    as (_ & Hnd & Hlive).
  by split.
Qed.

(** X7: a destructor that completes leaves the rest alone: the type mask
    is kept, a record the instance did not hold is live afterwards exactly
    if it was live before, and the [Delete] calls made are those on the
    records held and no other. *)
Theorem destructor_leaves_other_records
    (this this' : ImportedModelData) (h h' : Heap) (fuel : nat) :
  ImportedModelData_destructor fuel this h = Returned (this', h') ->
  Types this' = Types this /\
  (forall p, p ∉ owned_meshes this -> p ∈ live h' <-> p ∈ live h) /\
  (forall p, p ∈ deleted h' -> p ∈ deleted h \/ p ∈ owned_meshes this).
Proof.
  unfold ImportedModelData_destructor, bind.
  destruct (destructor_loop fuel 0 (LODs this) h) as [[lods h1]| |] eqn:Hloop;
    try done.
  destruct (destructor_loop_returned (LODs this) [] fuel h _ Hloop)
    as (Hfuel & Hnd & Hlive).
  pose proof (destructor_loop_releases (LODs this) [] fuel h Hfuel Hnd Hlive)
    as Hrun.
  change (Z.of_nat (length (@nil LOD))) with 0 in Hrun.
  rewrite app_nil_l in Hrun. rewrite Hrun in Hloop.
  injection Hloop as <- <-. unfold ret. intros [= <- <-]. simpl.
  fold (owned_meshes this). split; [done|]. split.
  - intros p Hp. rewrite elem_of_difference, elem_of_list_to_set. tauto.
  - intros p Hp. by apply elem_of_app in Hp.
Qed.

Lemma destructor_completes_only_when_owned_witness :
  exists this' h',
    ImportedModelData_destructor 3 sample_model sample_heap =
      Returned (this', h') /\
    exclusively_owned sample_model sample_heap.
Proof.
  eexists _, _. split.
  - vm_compute. reflexivity.
  - exact (destructor_completes_only_when_owned
             sample_model _ sample_heap _ 3 ltac:(vm_compute; reflexivity)).
Defined.

Lemma destructor_leaves_other_records_witness :
  exists this' h',
    ImportedModelData_destructor 3 sample_model sample_heap =
      Returned (this', h') /\
    Types this' = ImportDataTypes.Geometry /\
    64%N ∈ live h'.
Proof.
  eexists _, _. split.
  - vm_compute. reflexivity.
  - destruct (destructor_leaves_other_records
                sample_model _ sample_heap _ 3 ltac:(vm_compute; reflexivity))
      as (Htypes & Hframe & _).
    split; [exact Htypes|].
    apply Hframe.
    + vm_compute. intros Hin. repeat (apply elem_of_cons in Hin as [Hin|Hin]; [discriminate|]).
      by apply elem_of_nil in Hin.
    + vm_compute. set_solver.
Defined.

(** ** Import data type flags *)




(** ** Shader import: result, frame and side effects *)

Section ImportEffects.
Context `{ShaderImportEnvLaws}.

(** Every run of [Import] is one of the four below. *)
Lemma Import_runs (w : World) :
  (File_ReadAllText (InputPath (context w)) = None /\
   Import w = Returned (InvalidPath, set_context (prepared w) w)) \/
  (exists text,
     File_ReadAllText (InputPath (context w)) = Some text /\
     (AllocateChunk 15 (prepared w)).1 = true /\
     Import w = Returned (CannotAllocateChunk,
                          set_context (AllocateChunk 15 (prepared w)).2 w)) \/
  (exists text,
     File_ReadAllText (InputPath (context w)) = Some text /\
     (AllocateChunk 15 (prepared w)).1 = false /\
     Length text < 10 /\
     Import w =
       Returned (Error,
                 {| context := (AllocateChunk 15 (prepared w)).2;
                    ShaderCache := ShaderCache w;
                    Log := Log w ++
                      [(LogType.Warning, "Empty shader source file.")] |})) \/
  (exists text,
     File_ReadAllText (InputPath (context w)) = Some text /\
     (AllocateChunk 15 (prepared w)).1 = false /\
     10 <= Length text /\
     Import w =
       Returned (Ok,
                 {| context :=
                      set_CustomData (replicate sizeof_Header20 Byte.x00)
                        (set_Chunks
                           (<[15%nat := Some (FlaxChunk.mk
                                                (EncryptBytes text ++ [Byte.x00]))]>
                              (Chunks (Header (Data (AllocateChunk 15 (prepared w)).2))))
                           (AllocateChunk 15 (prepared w)).2);
                    ShaderCache :=
                      if COMPILE_WITH_SHADER_CACHE_MANAGER
                      then delete (ID (Header (Data (context w)))) (ShaderCache w)
                      else ShaderCache w;
                    Log := Log w |})).
Proof.
  destruct (File_ReadAllText (InputPath (context w))) as [text|] eqn:Hread.
  2:{ left. split; [done|]. by apply Import_unreadable. }
  right. destruct (AllocateChunk 15 (prepared w)).1 eqn:Halloc.
  { left. exists text. split; [done|]. split; [done|].
    by apply (Import_no_chunk w text). }
  right. destruct (Z_lt_le_dec (Length text) 10) as [Hshort|Hlong].
  { left. exists text. split; [done|]. split; [done|]. split; [done|].
    by apply (Import_short w text). }
  right. exists text. split; [done|]. split; [done|]. split; [done|].
  by apply (Import_stored w text).
Qed.

(** X9: the result code is decided by three tests in a fixed order.
    [InvalidPath] means exactly that the file could not be read;
    [CannotAllocateChunk] that it was read and the allocation failed;
    [Error] that both succeeded and the text has fewer than 10 characters;
    [Ok] that both succeeded and the text has 10 characters or more.  So an
    unreadable file is reported as such whatever the chunk table holds, and
    a failed allocation whatever the length of the text. *)
Theorem Import_result_decided (w w' : World) (r : CreateAssetResult) :
  Import w = Returned (r, w') ->
  let read := File_ReadAllText (InputPath (context w)) in
  let failed := (AllocateChunk 15 (prepared w)).1 in
  (r = InvalidPath <-> read = None) /\
  (r = CannotAllocateChunk <-> is_Some read /\ failed = true) /\
  (r = Error <->
     exists text, read = Some text /\ failed = false /\ Length text < 10) /\
  (r = Ok <->
     exists text, read = Some text /\ failed = false /\ 10 <= Length text).
Proof.
  intros Hrun. simpl.
  destruct (Import_runs w)
    as [[Hread Hw]|[(text & Hread & Halloc & Hw)
       |[(text & Hread & Halloc & Hlen & Hw)
        |(text & Hread & Halloc & Hlen & Hw)]]];
    rewrite Hw in Hrun; injection Hrun as <- <-;
    rewrite Hread, ?Halloc.
  - repeat split; try done.
    + by intros [[? ?] _].
    + by intros (? & ? & _).
    + by intros (? & ? & _).
  - repeat split; try done; eauto.
    + by intros (? & _ & ? & _).
    + by intros (? & _ & ? & _).
  - repeat split; try done.
    + by intros [_ ?].
    + intros _. by exists text.
    + intros (text' & [= <-] & _ & Hlong). lia.
  - repeat split; try done.
    + by intros [_ ?].
    + intros (text' & [= <-] & _ & Hshort). lia.
    + intros _. by exists text.
Qed.

Lemma at_index_insert_other {A} (items : list A) (i : int32) (k : nat) (x : A) :
  i <> Z.of_nat k ->
  at_index (<[k := x]> items) i = at_index items i.
Proof.
  unfold at_index. intros Hne. destruct (i <? 0) eqn:Hneg; [done|].
  apply Z.ltb_ge in Hneg. apply list_lookup_insert_ne. lia.
Qed.

(** X10: a successful import writes two things in the context, the
    source-code chunk and the custom data.  The input path, the metadata
    switch, the identity, the type name, the serialized version, the size
    of the chunk table and every chunk pointer other than number 15 are
    as the chunk allocation left them. *)
Theorem Import_writes_only_source_chunk (w w' : World) :
  Import w = Returned (Ok, w') ->
  let allocated := (AllocateChunk 15 (prepared w)).2 in
  InputPath (context w') = InputPath allocated /\
  SkipMetadata (context w') = SkipMetadata allocated /\
  ID (Header (Data (context w'))) = ID (Header (Data allocated)) /\
  TypeName (Header (Data (context w'))) = TypeName (Header (Data allocated)) /\
  SerializedVersion (Data (context w')) = SerializedVersion (Data allocated) /\
  length (Chunks (Header (Data (context w')))) =
    length (Chunks (Header (Data allocated))) /\
  (forall index, index <> 15 ->
     chunk_pointer (context w') index = chunk_pointer allocated index).
Proof.
  intros Hrun allocated.
  destruct (Import_runs w)
    as [[Hread Hw]|[(text & Hread & Halloc & Hw)
       |[(text & Hread & Halloc & Hlen & Hw)
        |(text & Hread & Halloc & Hlen & Hw)]]];
    rewrite Hw in Hrun; try done.
  injection Hrun as <-. simpl. fold allocated.
  repeat split; try done.
  - apply length_insert.
  - intros index Hindex. unfold chunk_pointer. simpl.
    by apply at_index_insert_other.
Qed.

(** X11: an import never adds a cache entry and never changes one: the
    cache it leaves is a part of the cache it found, and it is the whole of
    it unless the result is [Ok]. *)
Theorem Import_cache_only_shrinks (w w' : World) (r : CreateAssetResult) :
  Import w = Returned (r, w') ->
  ShaderCache w' ⊆ ShaderCache w /\
  (r <> Ok -> ShaderCache w' = ShaderCache w).
Proof.
  intros Hrun.
  destruct (Import_runs w)
    as [[Hread Hw]|[(text & Hread & Halloc & Hw)
       |[(text & Hread & Halloc & Hlen & Hw)
        |(text & Hread & Halloc & Hlen & Hw)]]];
    rewrite Hw in Hrun; injection Hrun as <- <-; simpl; try done.
  split; [|done].
  destruct COMPILE_WITH_SHADER_CACHE_MANAGER; [apply delete_subseteq|done].
Qed.
End ImportEffects.

(** An unreadable file is reported as such although slot 15 is taken. *)
Lemma Import_result_decided_witness :
  exists w',
    @Import (sample_env true)
      (sample_world "Shaders/Missing.shader" taken_chunks) =
      Returned (InvalidPath, w') /\
    sample_files "Shaders/Missing.shader" = None.
Proof.
  eexists. split.
  - vm_compute. reflexivity.
  - exact (proj1 (proj1 (@Import_result_decided
                           (sample_env true) (sample_env_laws true)
                           (sample_world "Shaders/Missing.shader" taken_chunks)
                           _ InvalidPath ltac:(vm_compute; reflexivity)))
                 eq_refl).
Defined.

Lemma Import_writes_only_source_chunk_witness :
  exists w',
    @Import (sample_env true)
      (sample_world "Shaders/Main.shader" free_chunks) = Returned (Ok, w') /\
    InputPath (context w') = "Shaders/Main.shader" /\
    chunk_pointer (context w') 3 = Some None.
Proof.
  eexists. split.
  - vm_compute. reflexivity.
  - destruct (@Import_writes_only_source_chunk
                (sample_env true) (sample_env_laws true)
                (sample_world "Shaders/Main.shader" free_chunks) _
                ltac:(vm_compute; reflexivity))
      as (Hpath & _ & _ & _ & _ & _ & Hchunks).
    split; [exact Hpath|]. exact (Hchunks 3 ltac:(discriminate)).
Defined.

Lemma Import_cache_only_shrinks_witness :
  exists w',
    @Import (sample_env true)
      (sample_world "Shaders/Stub.shader" free_chunks) = Returned (Error, w') /\
    ShaderCache w' = ShaderCache (sample_world "Shaders/Stub.shader" free_chunks).
Proof.
  eexists. split.
  - vm_compute. reflexivity.
  - exact (proj2 (@Import_cache_only_shrinks
                    (sample_env true) (sample_env_laws true)
                    (sample_world "Shaders/Stub.shader" free_chunks)
                    _ Error ltac:(vm_compute; reflexivity))
                 ltac:(discriminate)).
Defined.

(** ** The resolver: every call is of one of three kinds *)

Section ResolverOutcomes.
Context {Transform Node : Type}.
Context `{!TransformOps Transform, !NodeLike Transform Node}.
Implicit Types (nodes : list Node) (rootIndex index : int32).

(** A fault is the out-of-range subscript, met at the end of a climb. *)
Lemma fault_along_climb fuel nodes rootIndex index f :
  CombineTransformsFromNodeIndices fuel nodes rootIndex index = Fault f ->
  f = IndexOutOfRange /\
  exists (k : nat) (j : int32),
    climb k nodes rootIndex index = Some j /\
    stops_at rootIndex j = false /\
    at_index nodes j = None.
Proof.
  revert index. induction fuel as [|fuel IH]; intros index; [done|].
  simpl. fold (stops_at rootIndex index).
  destruct (stops_at rootIndex index) eqn:Hs; [done|].
  destruct (at_index nodes index) as [node|] eqn:Hat.
  - rewrite (stops_at_false _ _ Hs). simpl.
    destruct (CombineTransformsFromNodeIndices fuel nodes rootIndex
                (ParentIndex node)) eqn:Hparent; try done.
    intros [= <-]. destruct (IH _ Hparent) as (-> & k & j & Hk & Hj & Hnone).
    split; [done|]. exists (S k), j. simpl. by rewrite Hs, Hat.
  - intros [= <-]. split; [done|]. by exists 0%nat, index.
Qed.

(** X13: every call is of one of three kinds.  Either the parent chain of
    [index] is finite and the call returns the composition along it; or
    the chain runs into an index outside the array and the call ends in the
    out-of-range fault; or a cycle is reachable and the call never returns.
    There is no fourth outcome, and none of them is an error value. *)
Theorem resolver_outcomes nodes rootIndex index :
  (exists path,
     ParentChain nodes rootIndex index path /\
     forall fuel, (length path < fuel)%nat ->
       CombineTransformsFromNodeIndices fuel nodes rootIndex index =
       Returned (compose_chain path)) \/
  (exists (k : nat) (j : int32),
     climb k nodes rootIndex index = Some j /\
     stops_at rootIndex j = false /\
     at_index nodes j = None /\
     forall fuel, (length nodes < fuel)%nat ->
       CombineTransformsFromNodeIndices fuel nodes rootIndex index =
       Fault IndexOutOfRange) \/
  (CycleReachable nodes rootIndex index /\
   forall fuel,
     CombineTransformsFromNodeIndices fuel nodes rootIndex index = OutOfFuel).
Proof.
  destruct (CombineTransformsFromNodeIndices
              (S (length nodes)) nodes rootIndex index) as [t|f|] eqn:Hrun.
  - left. destruct (returned_along_chain _ _ _ _ _ Hrun) as (path & Hp & _).
    exists path. split; [done|]. by apply ParentChain_returns.
  - right. left.
    destruct (fault_along_climb _ _ _ _ _ Hrun) as (-> & k & j & Hk & Hj & Hnone).
    exists k, j. split; [done|]. split; [done|]. split; [done|].
    intros fuel Hfuel. rewrite <- Hrun. apply finished_stays; [lia|].
    by rewrite Hrun.
  - right. right. apply not_returned_climbing, long_climb_cycles in Hrun.
    split; [done|]. intros fuel.
    by apply climbing_not_returned, cycle_climbs_forever.
Qed.
End ResolverOutcomes.
